(** * vfkit: command-line generation ([pkg/client]) and list-valued flags
      ([pkg/cmdline])

    A shallow embedding of [pkg/client/cmdline.go] and of the
    [stringSliceValue] flag type exercised by
    [pkg/cmdline/string_slice_test.go], with the properties of the
    design document proved about them.

    Conventions.
    - A Go [string] is a [string] (a sequence of bytes); [uint] and [uint64]
      are [N] (no arithmetic is performed on them, so no wrap-around occurs);
      a [[]string] is a [list string], the [nil] slice and the empty slice
      both being [[]].
    - A Go method with a pointer receiver is a state-passing function on the
      receiver, [method S A := S -> A * S]: the second component is the
      receiver as the call leaves it.
    - A Go result [(v, err)] is a pair whose second component is
      [option error]; [None] is the [nil] error. *)

From stdpp Require Import base option list strings pretty.
From Stdlib Require Import NArith Ascii String.

Local Open Scope string_scope.
Local Open Scope list_scope.

(** ** Methods with a pointer receiver *)

Definition method (S A : Type) : Type := S → A * S.

Global Instance method_ret {S} : MRet (method S) := λ A a s, (a, s).
Global Instance method_bind {S} : MBind (method S) :=
  λ A B k m s, let '(a, s') := m s in k a s'.

(** Reading a field of the receiver. *)
Definition gets {S A} (f : S → A) : method S A := λ s, (f s, s).
(** Assigning to the receiver. *)
Definition modify {S} (f : S → S) : method S () := λ s, (tt, f s).
(** [obj.m()] where [obj] is reached through the receiver: the callee runs on
    [obj] and [store] writes the object it leaves back into the receiver. *)
Definition invoke {S T A} (obj : T) (store : T → S → S) (m : method T A)
  : method S A :=
  λ s, let '(a, obj') := m obj in (a, store obj' s).

(** ** Errors and results *)

Inductive error : Type :=
  | Errorf (msg : string)                (* fmt.Errorf(msg) *)
  | AddrError (Err : string) (Addr : string). (* &net.AddrError{Err, Addr} *)

Definition cmdline_result : Type := list string * option error.

(** [strconv.FormatUint(n, 10)], also the [%d] verb on an unsigned operand. *)
Definition FormatUint (n : N) : string := pretty n.

(** [strings.Join] *)
Definition Join (elems : list string) (sep : string) : string :=
  String.concat sep elems.

(** ** [net.HardwareAddr] *)

Definition HardwareAddr : Type := list N.

Definition hexDigit (n : N) : ascii :=
  match n with
  | 0 => "0" | 1 => "1" | 2 => "2" | 3 => "3" | 4 => "4" | 5 => "5"
  | 6 => "6" | 7 => "7" | 8 => "8" | 9 => "9" | 10 => "a" | 11 => "b"
  | 12 => "c" | 13 => "d" | 14 => "e" | _ => "f"
  end%N%char.

(** [HardwareAddr.String], which the [%s] verb calls: the bytes in lower-case
    hexadecimal, separated by colons. *)
Fixpoint HardwareAddr_String_from (i : nat) (a : HardwareAddr) : string :=
  match a with
  | [] => ""
  | b :: a' =>
      (if i is O then "" else ":")
      +:+ String (hexDigit (N.shiftr b 4))
            (String (hexDigit (N.land b 15)) (HardwareAddr_String_from (S i) a'))
  end.
Definition HardwareAddr_String (a : HardwareAddr) : string :=
  HardwareAddr_String_from 0 a.

(** ** Data model ([pkg/client/cmdline.go], lines 15-95) *)

Record linuxBootloader := {
  vmlinuzPath : string;
  kernelCmdLine : string;
  initrdPath : string }.

Record efiBootloader := {
  efiVariableStorePath : string;
  createVariableStore : bool }.

Record VirtioVsock := {
  Port : N;
  SocketURL : string;
  Listen : bool }.

Record virtioBlk := { imagePath : string }.

Record virtioRNG := { }.

(** The field [nat] of the source is [net_nat] here. *)
Record virtioNet := {
  net_nat : bool;
  macAddress : HardwareAddr }.

Record virtioSerial := { logFile : string }.

Record virtioFs := {
  sharedDir : string;
  mountTag : string }.

Record timeSync := { vsockPort : N }.

(** A value of the interface type [VMComponent]: one of the nine types of the
    package that have a [ToCmdLine] method, with the object it points to. *)
Inductive VMComponent : Type :=
  | LinuxBootloader (b : linuxBootloader)
  | EfiBootloader (b : efiBootloader)
  | Vsock (dev : VirtioVsock)
  | Blk (dev : virtioBlk)
  | RNG (dev : virtioRNG)
  | Net (dev : virtioNet)
  | Serial (dev : virtioSerial)
  | Fs (dev : virtioFs)
  | TimeSync (ts : timeSync).

(** [type Bootloader VMComponent] and [type VirtioDevice VMComponent]: the
    same interface under two names. *)
Abbreviation Bootloader := VMComponent (only parsing).
Abbreviation VirtioDevice := VMComponent (only parsing).

(** [bootloader = None] is the [nil] interface value. *)
Record VirtualMachine := {
  vcpus : N;
  memoryBytes : N;
  bootloader : option Bootloader;
  devices : list VirtioDevice }.

Definition set_bootloader (b : option Bootloader) (vm : VirtualMachine)
  : VirtualMachine :=
  {| vcpus := vcpus vm; memoryBytes := memoryBytes vm;
     bootloader := b; devices := devices vm |}.

Definition set_devices (ds : list VirtioDevice) (vm : VirtualMachine)
  : VirtualMachine :=
  {| vcpus := vcpus vm; memoryBytes := memoryBytes vm;
     bootloader := bootloader vm; devices := ds |}.

(** ** The [ToCmdLine] methods *)

Class HasToCmdLine (T : Type) := ToCmdLine : method T cmdline_result.
Global Hint Mode HasToCmdLine ! : typeclass_instances.

(** lines 173-191 *)
Definition linuxBootloader_ToCmdLine : method linuxBootloader cmdline_result :=
  let args := [] in
  vmlinuz ← gets vmlinuzPath;
  if bool_decide (vmlinuz = "") then mret ([], Some (Errorf "Missing kernel path"))
  else
  let args := args ++ ["--kernel"; vmlinuz] in
  initrd ← gets initrdPath;
  if bool_decide (initrd = "") then mret ([], Some (Errorf "Missing initrd path"))
  else
  let args := args ++ ["--initrd"; initrd] in
  cmdline ← gets kernelCmdLine;
  if bool_decide (cmdline = "") then
    mret ([], Some (Errorf "Missing kernel command line"))
  else
  let args := args ++ ["--kernel-cmdline"; cmdline] in
  mret (args, None).

(** lines 193-206 *)
Definition efiBootloader_ToCmdLine : method efiBootloader cmdline_result :=
  path ← gets efiVariableStorePath;
  if bool_decide (path = "") then mret ([], Some (Errorf "Missing EFI store path"))
  else
  let builder := "" in
  let builder := builder +:+ "efi" in
  let builder := builder +:+ (",variable-store=" +:+ path) in
  create ← gets createVariableStore;
  let builder := if (create : bool) then builder +:+ ",create" else builder in
  mret (["--bootloader"; builder], None).

(** lines 221-232 *)
Definition VirtioVsock_ToCmdLine : method VirtioVsock cmdline_result :=
  port ← gets Port;
  url ← gets SocketURL;
  if bool_decide (port = 0%N) || bool_decide (url = "") then
    mret ([], Some (Errorf "virtio-vsock needs both a port and a socket URL"))
  else
  listen ← gets Listen;
  let listenStr := if (listen : bool) then "listen" else "connect" in
  mret (["--device";
         "virtio-vsock,port=" +:+ FormatUint port +:+ ",socketURL=" +:+ url
           +:+ "," +:+ listenStr], None).

(** lines 242-247 *)
Definition virtioBlk_ToCmdLine : method virtioBlk cmdline_result :=
  path ← gets imagePath;
  if bool_decide (path = "") then
    mret ([], Some (Errorf "virtio-blk needs the path to a disk image"))
  else mret (["--device"; "virtio-blk,path=" +:+ path], None).

(** lines 255-257 *)
Definition virtioRNG_ToCmdLine : method virtioRNG cmdline_result :=
  mret (["--device"; "virtio-rng"], None).

(** lines 276-288 *)
Definition virtioNet_ToCmdLine : method virtioNet cmdline_result :=
  nat ← gets net_nat;
  if negb nat then
    mret ([], Some (Errorf "virtio-net only support 'nat' networking"))
  else
  let builder := "" in
  let builder := builder +:+ "virtio-net" in
  let builder := builder +:+ ",nat" in
  mac ← gets macAddress;
  let builder :=
    if bool_decide (List.length mac ≠ 0) then
      builder +:+ (",mac=" +:+ HardwareAddr_String mac)
    else builder in
  mret (["--device"; builder], None).

(** lines 299-304 *)
Definition virtioSerial_ToCmdLine : method virtioSerial cmdline_result :=
  path ← gets logFile;
  if bool_decide (path = "") then
    mret ([], Some (Errorf "virtio-serial needs the path to the log file"))
  else mret (["--device"; "virtio-serial,logFilePath=" +:+ path], None).

(** lines 316-325 *)
Definition virtioFs_ToCmdLine : method virtioFs cmdline_result :=
  dir ← gets sharedDir;
  if bool_decide (dir = "") then
    mret ([], Some (Errorf "virtio-fs needs the path to the directory to share"))
  else
  tag ← gets mountTag;
  if bool_decide (tag ≠ "") then
    mret (["--device"; "virtio-fs,sharedDir=" +:+ dir +:+ ",mountTag=" +:+ tag],
          None)
  else mret (["--device"; "virtio-fs,sharedDir=" +:+ dir], None).

(** lines 333-339 *)
Definition timeSync_ToCmdLine : method timeSync cmdline_result :=
  let args := [] in
  port ← gets vsockPort;
  let args :=
    if bool_decide (port ≠ 0%N) then args ++ ["vsockPort=" +:+ FormatUint port]
    else args in
  mret (["--timesync"; Join args ","], None).

Global Instance linuxBootloader_cmd : HasToCmdLine linuxBootloader :=
  linuxBootloader_ToCmdLine.
Global Instance efiBootloader_cmd : HasToCmdLine efiBootloader :=
  efiBootloader_ToCmdLine.
Global Instance VirtioVsock_cmd : HasToCmdLine VirtioVsock :=
  VirtioVsock_ToCmdLine.
Global Instance virtioBlk_cmd : HasToCmdLine virtioBlk := virtioBlk_ToCmdLine.
Global Instance virtioRNG_cmd : HasToCmdLine virtioRNG := virtioRNG_ToCmdLine.
Global Instance virtioNet_cmd : HasToCmdLine virtioNet := virtioNet_ToCmdLine.
Global Instance virtioSerial_cmd : HasToCmdLine virtioSerial :=
  virtioSerial_ToCmdLine.
Global Instance virtioFs_cmd : HasToCmdLine virtioFs := virtioFs_ToCmdLine.
Global Instance timeSync_cmd : HasToCmdLine timeSync := timeSync_ToCmdLine.

(** Running a method on the object behind an interface value. *)
Definition dispatch {T} `{HasToCmdLine T} (wrap : T → VMComponent) (obj : T)
  : cmdline_result * VMComponent :=
  let '(r, obj') := ToCmdLine obj in (r, wrap obj').

(** A call through the interface: dynamic dispatch on the type of the object. *)
Definition VMComponent_ToCmdLine : method VMComponent cmdline_result :=
  λ c, match c with
       | LinuxBootloader b => dispatch LinuxBootloader b
       | EfiBootloader b => dispatch EfiBootloader b
       | Vsock dev => dispatch Vsock dev
       | Blk dev => dispatch Blk dev
       | RNG dev => dispatch RNG dev
       | Net dev => dispatch Net dev
       | Serial dev => dispatch Serial dev
       | Fs dev => dispatch Fs dev
       | TimeSync ts => dispatch TimeSync ts
       end.
Global Instance VMComponent_cmd : HasToCmdLine VMComponent :=
  VMComponent_ToCmdLine.

(** ** The virtual machine (lines 97-149) *)

Definition NewVirtualMachine (vcpus memoryBytes : N) (bootloader : option Bootloader)
  : VirtualMachine :=
  {| vcpus := vcpus; memoryBytes := memoryBytes; bootloader := bootloader;
     devices := [] |}.

(** [vm.devices[i]] is overwritten with the object the call left. *)
Definition store_device (i : nat) (dev : VirtioDevice) (vm : VirtualMachine)
  : VirtualMachine :=
  set_devices (<[i := dev]> (devices vm)) vm.

(** The loop [for _, dev := range vm.devices] of lines 132-138, at the
    [i]-th element, with [devs] the elements still to visit. *)
Fixpoint range_devices (devs : list VirtioDevice) (i : nat) (args : list string)
  : method VirtualMachine cmdline_result :=
  match devs with
  | [] => mret (args, None)
  | dev :: devs' =>
      '(devArgs, err) ← invoke dev (store_device i) ToCmdLine;
      match err with
      | Some e => mret ([], Some e)
      | None => range_devices devs' (S i) (args ++ devArgs)
      end
  end.

(** lines 112-141 *)
Definition VirtualMachine_ToCmdLine : method VirtualMachine cmdline_result :=
  let args := [] in
  cpus ← gets vcpus;
  let args :=
    if bool_decide (cpus ≠ 0%N) then args ++ ["--cpus"; FormatUint cpus]
    else args in
  mem ← gets memoryBytes;
  let args :=
    if bool_decide (mem ≠ 0%N) then args ++ ["--memory"; FormatUint mem]
    else args in
  bl ← gets bootloader;
  match bl with
  | None => mret ([], Some (Errorf "missing bootloader configuration"))
  | Some b =>
      '(bootloaderArgs, err) ←
        invoke b (λ b', set_bootloader (Some b')) ToCmdLine;
      match err with
      | Some e => mret ([], Some e)
      | None =>
          let args := args ++ bootloaderArgs in
          devs ← gets devices;
          range_devices devs 0 args
      end
  end.
Global Instance VirtualMachine_cmd : HasToCmdLine VirtualMachine :=
  VirtualMachine_ToCmdLine.

(** lines 145-149 *)
Definition AddDevice (dev : VirtioDevice) : method VirtualMachine (option error) :=
  _ ← modify (λ vm, set_devices (devices vm ++ [dev]) vm);
  mret None.

(** ** Constructors *)

Definition NewLinuxBootloader (vmlinuzPath kernelCmdLine initrdPath : string)
  : Bootloader :=
  LinuxBootloader {| vmlinuzPath := vmlinuzPath; kernelCmdLine := kernelCmdLine;
                     initrdPath := initrdPath |}.

Definition NewEFIBootloader (efiVariableStorePath : string) (create : bool)
  : Bootloader :=
  EfiBootloader {| efiVariableStorePath := efiVariableStorePath;
                   createVariableStore := create |}.

Definition VirtioVsockNew (port : N) (socketURL : string) (listen : bool)
  : option VirtioDevice * option error :=
  (Some (Vsock {| Port := port; SocketURL := socketURL; Listen := listen |}), None).

Definition VirtioBlkNew (imagePath : string) : option VirtioDevice * option error :=
  (Some (Blk {| imagePath := imagePath |}), None).

Definition VirtioRNGNew : option VirtioDevice * option error :=
  (Some (RNG Build_virtioRNG), None).

Definition VirtioSerialNew (logFilePath : string)
  : option VirtioDevice * option error :=
  (Some (Serial {| logFile := logFilePath |}), None).

Definition VirtioFsNew (sharedDir mountTag : string)
  : option VirtioDevice * option error :=
  (Some (Fs {| sharedDir := sharedDir; mountTag := mountTag |}), None).

Definition TimeSyncNew (vsockPort : N) : option VMComponent * option error :=
  (Some (TimeSync {| vsockPort := vsockPort |}), None).

(** lines 261-274.  [net.ParseMAC] belongs to the Go standard library; it is a
    parameter here and [net_ParseMAC] below models it. *)
Definition VirtioNetNew (ParseMAC : string → HardwareAddr * option error)
    (macAddress : string) : option VirtioDevice * option error :=
  let hwAddr : HardwareAddr := [] in
  let '(hwAddr, err) :=
    if bool_decide (macAddress ≠ "") then ParseMAC macAddress
    else (hwAddr, None) in
  match err with
  | Some e => (None, Some e)
  | None => (Some (Net {| net_nat := true; macAddress := hwAddr |}), None)
  end.

(** ** [net.ParseMAC] (Go standard library, [net/mac.go]) *)

Definition xdigit (c : ascii) : option N :=
  let n := N_of_ascii c in
  if (48 <=? n)%N && (n <=? 57)%N then Some (n - 48)%N
  else if (97 <=? n)%N && (n <=? 102)%N then Some (n - 97 + 10)%N
  else if (65 <=? n)%N && (n <=? 70)%N then Some (n - 65 + 10)%N
  else None.

(** [xtoi2(s, e)]: the first two bytes of [s] as hexadecimal digits; when [s]
    is longer than two bytes the third one must be [e]. *)
Definition xtoi2 (s : string) (e : option ascii) : option N :=
  match s with
  | String a (String b rest) =>
      let third_ok :=
        match rest, e with
        | "", _ => true
        | String c _, Some e => bool_decide (c = e)
        | String c _, None => bool_decide (c = zero)
        end in
      if third_ok then hi ← xdigit a; lo ← xdigit b; Some (16 * hi + lo)%N
      else None
  | _ => None
  end.

Fixpoint string_drop (n : nat) (s : string) : string :=
  match n, s with
  | O, _ => s
  | S n', String _ s' => string_drop n' s'
  | S _, "" => ""
  end.

(** The loop of the [xx:xx:...] and [xx-xx-...] forms: [n] bytes to read from
    [s], three characters apart. *)
Fixpoint parse_bytes (n : nat) (s : string) (sep : ascii) : option HardwareAddr :=
  match n with
  | O => Some []
  | S n' =>
      b ← xtoi2 s (Some sep);
      hw ← parse_bytes n' (string_drop 3 s) sep;
      Some (b :: hw)
  end.

(** The loop of the [xxxx.xxxx...] form: [n] pairs of bytes to read from [s],
    five characters apart. *)
Fixpoint parse_words (n : nat) (s : string) (sep : ascii) : option HardwareAddr :=
  match n with
  | O => Some []
  | S n' =>
      b1 ← xtoi2 (String.substring 0 2 s) None;
      b2 ← xtoi2 (string_drop 2 s) (Some sep);
      hw ← parse_words n' (string_drop 5 s) sep;
      Some (b1 :: b2 :: hw)
  end.

Definition invalid_MAC (s : string) : HardwareAddr * option error :=
  ([], Some (AddrError "invalid MAC address" s)).

Definition net_ParseMAC (s : string) : HardwareAddr * option error :=
  let len := String.length s in
  if bool_decide (len < 14) then invalid_MAC s
  else if bool_decide (String.get 2 s = Some ":"%char ∨ String.get 2 s = Some "-"%char)
  then
    if bool_decide ((len + 1) `mod` 3 ≠ 0) then invalid_MAC s
    else
      let n := (len + 1) `div` 3 in
      if bool_decide (n ≠ 6 ∧ n ≠ 8 ∧ n ≠ 20) then invalid_MAC s
      else match parse_bytes n s (default zero (String.get 2 s)) with
           | Some hw => (hw, None)
           | None => invalid_MAC s
           end
  else if bool_decide (String.get 4 s = Some "."%char) then
    if bool_decide ((len + 1) `mod` 5 ≠ 0) then invalid_MAC s
    else
      let n := (2 * (len + 1)) `div` 5 in
      if bool_decide (n ≠ 6 ∧ n ≠ 8 ∧ n ≠ 20) then invalid_MAC s
      else match parse_words (n `div` 2) s "."%char with
           | Some hw => (hw, None)
           | None => invalid_MAC s
           end
  else invalid_MAC s.

(** ** The list-valued flag [stringSliceValue] ([pkg/cmdline]) *)

(** The double-quote character. *)
Definition dquote : ascii := Eval cbv in ascii_of_nat 34.

(** [s] between two double quotes. *)
Definition quoted (s : string) : string := String dquote (s +:+ String dquote "").

Definition count_quotes (s : string) : nat :=
  List.length (filter (λ c, c = dquote) (list_ascii_of_string s)).

Definition has_comma (s : string) : bool :=
  bool_decide (","%char ∈ list_ascii_of_string s).

(** Modelled from the spec: the file declaring [stringSliceValue] and its
    methods ([Set], [Replace], [GetSlice], [String]) is missing from the
    sources, which only hold its tests.  A ListValue is an ordered sequence of
    strings; [changed] records that a [Set] has executed, which the data-model
    invariant (the first [Set] discards the default installed by [Replace])
    needs and which [TestSSWithDefault] observes. *)
Record stringSliceValue := {
  value : list string;
  changed : bool }.

(** [var ss stringSliceValue] *)
Definition zero_stringSliceValue : stringSliceValue :=
  {| value := []; changed := false |}.

(** Modelled from the spec: step 1 of the splitting algorithm.  The input is
    scanned left to right; a double quote toggles the inside-quotes state and
    stays in the element; a comma outside quotes ends the current element. *)
Fixpoint splitFields (inQuotes : bool) (cur : string) (s : string) : list string :=
  match s with
  | "" => [cur]
  | String c s' =>
      if bool_decide (c = dquote) then
        splitFields (negb inQuotes) (cur +:+ String c "") s'
      else if bool_decide (c = ","%char) && negb inQuotes then
        cur :: splitFields false "" s'
      else splitFields inQuotes (cur +:+ String c "") s'
  end.

(** Modelled from the spec: an element is wholly wrapped in a single pair of
    double quotes when it starts with one, ends with another one, and holds no
    third one. *)
Definition wrapped (e : string) : bool :=
  bool_decide (2 ≤ String.length e)%nat
  && bool_decide (String.get 0 e = Some dquote)
  && bool_decide (String.get (String.length e - 1) e = Some dquote)
  && bool_decide (count_quotes e = 2).

(** Modelled from the spec: step 2 of the splitting algorithm, the two
    enclosing quotes of a wrapped element are stripped. *)
Definition unquote (e : string) : string :=
  if wrapped e then String.substring 1 (String.length e - 2) e else e.

(** Modelled from the spec: steps 1 to 3 of the splitting algorithm; the
    empty input has no element. *)
Definition readAsCSV (val : string) : list string :=
  if bool_decide (val = "") then []
  else unquote <$> splitFields false "" val.

(** Modelled from the spec: [Set] parses its argument; the first [Set]
    installs the parsed elements in place of what [Replace] had installed, a
    later one appends them.  ([Set] is a reserved word, hence [Set_].) *)
Definition Set_ (val : string) : method stringSliceValue (option error) :=
  let rv := readAsCSV val in
  chg ← gets changed;
  _ ← modify (λ s, {| value := if (chg : bool) then value s ++ rv else rv;
                      changed := true |});
  mret None.

(** Modelled from the spec: [Replace] discards the contents and installs
    [val] verbatim. *)
Definition Replace (val : list string) : method stringSliceValue (option error) :=
  _ ← modify (λ s, {| value := val; changed := changed s |});
  mret None.

(** Modelled from the spec: the contents. *)
Definition GetSlice : method stringSliceValue (list string) := gets value.

(** Modelled from the spec: the rendering re-quotes the elements that hold a
    comma and joins the elements with commas.  ([String] is the constructor
    of strings, hence [String_].) *)
Definition requote (e : string) : string := if has_comma e then quoted e else e.
Definition String_ : method stringSliceValue string :=
  vs ← gets value;
  mret (Join (requote <$> vs) ",").

(** Modelled from the spec: item 4 and 5 of section 4.3 read literally, every
    [Set] appends.  [TestSSWithDefault] fails on it, see
    [Set_always_append_fails_test]. *)
Definition Set_always_append (val : string)
  : method stringSliceValue (option error) :=
  _ ← modify (λ s, {| value := value s ++ readAsCSV val; changed := true |});
  mret None.

(** [f.Parse(args)] on a flag set whose only flag is the list value: one [Set]
    for each occurrence [--ss=raw], in order. *)
Fixpoint Parse (set : string → method stringSliceValue (option error))
    (raws : list string) : method stringSliceValue (option error) :=
  match raws with
  | [] => mret None
  | raw :: raws' =>
      err ← set raw;
      match err with
      | Some e => mret (Some e)
      | None => Parse set raws'
      end
  end.

(** The check of the tests: [for i, v := range getSS { if vals[i] != v { fail } }];
    reading [vals[i]] out of range fails too. *)
Fixpoint elements_agree (vals getSS : list string) : bool :=
  match getSS, vals with
  | [], _ => true
  | v :: getSS', w :: vals' => bool_decide (w = v) && elements_agree vals' getSS'
  | _ :: _, [] => false
  end.

(** ** Definitions used by the properties *)

(** The value of the loop of [VirtualMachine.ToCmdLine] over [devs], entered
    with [args]. *)
Fixpoint range_value (devs : list VirtioDevice) (args : list string)
  : cmdline_result :=
  match devs with
  | [] => (args, None)
  | dev :: devs' =>
      match (ToCmdLine dev).1 with
      | (devArgs, None) => range_value devs' (args ++ devArgs)
      | (_, Some e) => ([], Some e)
      end
  end.

(** The tokens that [VirtualMachine.ToCmdLine] emits before the bootloader. *)
Definition cpus_tokens (vm : VirtualMachine) : list string :=
  if bool_decide (vcpus vm = 0%N) then [] else ["--cpus"; FormatUint (vcpus vm)].
Definition memory_tokens (vm : VirtualMachine) : list string :=
  if bool_decide (memoryBytes vm = 0%N) then []
  else ["--memory"; FormatUint (memoryBytes vm)].

(** A virtual machine with an efi bootloader and four devices, two of them
    equal, and the tokens it renders to. *)
Definition example_vm : VirtualMachine :=
  {| vcpus := 2; memoryBytes := 2048;
     bootloader := Some (NewEFIBootloader "/store" true);
     devices := [Blk {| imagePath := "/disk.img" |}; RNG Build_virtioRNG;
                 RNG Build_virtioRNG;
                 Fs {| sharedDir := "/host/share"; mountTag := "" |}] |}.

Definition example_vm_tokens : list string :=
  ["--cpus"; "2"; "--memory"; "2048"; "--bootloader"; "efi,variable-store=/store,create";
   "--device"; "virtio-blk,path=/disk.img"; "--device"; "virtio-rng";
   "--device"; "virtio-rng"; "--device"; "virtio-fs,sharedDir=/host/share"].

(** A virtual machine whose second device has no disk image, and one without
    bootloader whose only device has none either. *)
Definition example_vm_bad : VirtualMachine :=
  {| vcpus := 2; memoryBytes := 2048;
     bootloader := Some (NewEFIBootloader "/store" true);
     devices := [RNG Build_virtioRNG; Blk {| imagePath := "" |};
                 RNG Build_virtioRNG] |}.

Definition headless_vm : VirtualMachine :=
  {| vcpus := 1; memoryBytes := 512; bootloader := None;
     devices := [Blk {| imagePath := "" |}] |}.

(** The components that the package returns as [Bootloader] and as
    [VirtioDevice]; [TimeSyncNew] returns a plain [VMComponent]. *)
Definition is_bootloader (c : VMComponent) : bool :=
  match c with LinuxBootloader _ | EfiBootloader _ => true | _ => false end.
Definition is_device (c : VMComponent) : bool :=
  match c with
  | Vsock _ | Blk _ | RNG _ | Net _ | Serial _ | Fs _ => true
  | _ => false
  end.

(** The token grammar of the design document (section 6), for the components
    rendered as a flag and a value: the flag, and the comma-separated
    components of the value, the variant tag first. *)
Definition grammar_flag (c : VMComponent) : string :=
  match c with
  | EfiBootloader _ => "--bootloader"
  | TimeSync _ => "--timesync"
  | _ => "--device"
  end.
Definition grammar_value (c : VMComponent) : list string :=
  match c with
  | EfiBootloader b =>
      ["efi"; "variable-store=" +:+ efiVariableStorePath b]
      ++ (if createVariableStore b then ["create"] else [])
  | Vsock dev =>
      ["virtio-vsock"; "port=" +:+ FormatUint (Port dev);
       "socketURL=" +:+ SocketURL dev;
       if Listen dev then "listen" else "connect"]
  | Blk dev => ["virtio-blk"; "path=" +:+ imagePath dev]
  | RNG _ => ["virtio-rng"]
  | Net dev =>
      ["virtio-net"; "nat"]
      ++ (if bool_decide (macAddress dev = []) then []
          else ["mac=" +:+ HardwareAddr_String (macAddress dev)])
  | Serial dev => ["virtio-serial"; "logFilePath=" +:+ logFile dev]
  | Fs dev =>
      ["virtio-fs"; "sharedDir=" +:+ sharedDir dev]
      ++ (if bool_decide (mountTag dev = "") then []
          else ["mountTag=" +:+ mountTag dev])
  | _ => []
  end.

(** A linux bootloader with its three fields set. *)
Definition linux_example : Bootloader :=
  NewLinuxBootloader "/boot/vmlinuz" "console=hvc0" "/boot/initrd".

(** The contents after [f.Parse(raws)], the flag having been given the
    default [default] with [Replace] beforehand, or none. *)
Definition contents_after (set : string → method stringSliceValue (option error))
    (default : option (list string)) (raws : list string) : list string :=
  let ss := zero_stringSliceValue in
  let ss := match default with Some d => (Replace d ss).2 | None => ss end in
  (GetSlice (Parse set raws ss).2).1.

(** A field: a string in which every comma stands between quotes.  Scanned
    from the state [inQuotes], such a string ends in the state
    [field_end inQuotes f]; [None] when a comma outside quotes occurs. *)
Fixpoint field_end (inQuotes : bool) (f : string) : option bool :=
  match f with
  | "" => Some inQuotes
  | String c f' =>
      if bool_decide (c = dquote) then field_end (negb inQuotes) f'
      else if bool_decide (c = ","%char) && negb inQuotes then None
      else field_end inQuotes f'
  end.

(** ** Validity and the shape of the output *)

(** The fields that the [ToCmdLine] method of a component requires: the tests
    that guard its [return nil, fmt.Errorf(...)] statements, negated. *)
Definition valid (c : VMComponent) : bool :=
  match c with
  | LinuxBootloader b =>
      bool_decide (vmlinuzPath b ≠ "") && bool_decide (initrdPath b ≠ "")
      && bool_decide (kernelCmdLine b ≠ "")
  | EfiBootloader b => bool_decide (efiVariableStorePath b ≠ "")
  | Vsock dev => bool_decide (Port dev ≠ 0%N) && bool_decide (SocketURL dev ≠ "")
  | Blk dev => bool_decide (imagePath dev ≠ "")
  | RNG _ => true
  | Net dev => net_nat dev
  | Serial dev => bool_decide (logFile dev ≠ "")
  | Fs dev => bool_decide (sharedDir dev ≠ "")
  | TimeSync _ => true
  end.

Definition VirtualMachine_valid (vm : VirtualMachine) : bool :=
  match bootloader vm with
  | None => false
  | Some b => valid b && forallb valid (devices vm)
  end.

(** The flags that the methods of the package emit. *)
Definition flags : list string :=
  ["--cpus"; "--memory"; "--kernel"; "--initrd"; "--kernel-cmdline";
   "--bootloader"; "--device"; "--timesync"].

(** [args] is a sequence of pairs, a flag of the package and its value. *)
Fixpoint flag_value_pairs (args : list string) : bool :=
  match args with
  | [] => true
  | [_] => false
  | flag :: _ :: args' => bool_decide (flag ∈ flags) && flag_value_pairs args'
  end.

(** The number of tokens of a component that renders. *)
Definition token_count (c : VMComponent) : nat :=
  match c with LinuxBootloader _ => 6 | _ => 2 end.

(** The messages of the [fmt.Errorf] calls of the package. *)
Definition error_messages : list string :=
  ["missing bootloader configuration"; "Missing kernel path";
   "Missing initrd path"; "Missing kernel command line";
   "Missing EFI store path";
   "virtio-vsock needs both a port and a socket URL";
   "virtio-blk needs the path to a disk image";
   "virtio-net only support 'nat' networking";
   "virtio-serial needs the path to the log file";
   "virtio-fs needs the path to the directory to share"].

(** * Properties *)

Example rng_tokens :
  VMComponent_ToCmdLine (RNG Build_virtioRNG)
  = ((["--device"; "virtio-rng"], None), RNG Build_virtioRNG).
Proof. reflexivity. Qed.

Example parse_mac_colon :
  net_ParseMAC "00:1b:2C:33:44:55" = ([0; 27; 44; 51; 68; 85]%N, None).
Proof. vm_compute. reflexivity. Qed.

Example parse_mac_dots :
  net_ParseMAC "0000.5e00.5301" = ([0; 0; 94; 0; 83; 1]%N, None).
Proof. vm_compute. reflexivity. Qed.

Example parse_mac_bad :
  net_ParseMAC "00:1b:2C:33:44:5g" = invalid_MAC "00:1b:2C:33:44:5g".
Proof. vm_compute. reflexivity. Qed.

Example hw_string :
  HardwareAddr_String [0; 27; 44; 51; 68; 85]%N = "00:1b:2c:33:44:55".
Proof. reflexivity. Qed.

Example read_plain : readAsCSV "one,two,4,3" = ["one"; "two"; "4"; "3"].
Proof. vm_compute. reflexivity. Qed.

Example read_quoted :
  readAsCSV (quoted "four,five" +:+ ",six") = ["four,five"; "six"].
Proof. vm_compute. reflexivity. Qed.

(** ** Running methods *)

Ltac unfold_method :=
  cbv beta iota zeta delta
    [ToCmdLine VMComponent_cmd VMComponent_ToCmdLine dispatch
     linuxBootloader_cmd efiBootloader_cmd VirtioVsock_cmd virtioBlk_cmd
     virtioRNG_cmd virtioNet_cmd virtioSerial_cmd virtioFs_cmd timeSync_cmd
     linuxBootloader_ToCmdLine efiBootloader_ToCmdLine VirtioVsock_ToCmdLine
     virtioBlk_ToCmdLine virtioRNG_ToCmdLine virtioNet_ToCmdLine
     virtioSerial_ToCmdLine virtioFs_ToCmdLine timeSync_ToCmdLine
     mbind mret method_bind method_ret gets modify invoke] in *.

Ltac run_method := unfold_method; cbn in *; repeat (case_bool_decide; cbn in * ).

(** ** No [ToCmdLine] method of a component assigns to its receiver *)

Lemma linuxBootloader_frame (b : linuxBootloader) : (ToCmdLine b).2 = b.
Proof. destruct b. by run_method. Qed.

Lemma efiBootloader_frame (b : efiBootloader) : (ToCmdLine b).2 = b.
Proof. destruct b. by run_method. Qed.

Lemma VirtioVsock_frame (dev : VirtioVsock) : (ToCmdLine dev).2 = dev.
Proof. destruct dev. by run_method. Qed.

Lemma virtioBlk_frame (dev : virtioBlk) : (ToCmdLine dev).2 = dev.
Proof. destruct dev. by run_method. Qed.

Lemma virtioRNG_frame (dev : virtioRNG) : (ToCmdLine dev).2 = dev.
Proof. by destruct dev. Qed.

Lemma virtioNet_frame (dev : virtioNet) : (ToCmdLine dev).2 = dev.
Proof. destruct dev as [[] ?]; by run_method. Qed.

Lemma virtioSerial_frame (dev : virtioSerial) : (ToCmdLine dev).2 = dev.
Proof. destruct dev. by run_method. Qed.

Lemma virtioFs_frame (dev : virtioFs) : (ToCmdLine dev).2 = dev.
Proof. destruct dev. by run_method. Qed.

Lemma timeSync_frame (ts : timeSync) : (ToCmdLine ts).2 = ts.
Proof. destruct ts. by run_method. Qed.

Lemma dispatch_frame {T} `{HasToCmdLine T} (wrap : T → VMComponent) (obj : T) :
  (ToCmdLine obj).2 = obj →
  dispatch wrap obj = ((ToCmdLine obj).1, wrap obj).
Proof. unfold dispatch. destruct (ToCmdLine obj) as [r obj']. by intros [= ->]. Qed.

Lemma VMComponent_frame (c : VMComponent) : (ToCmdLine c).2 = c.
Proof.
  destruct c; unfold ToCmdLine, VMComponent_cmd, VMComponent_ToCmdLine;
    rewrite dispatch_frame;
    eauto using linuxBootloader_frame, efiBootloader_frame, VirtioVsock_frame,
      virtioBlk_frame, virtioRNG_frame, virtioNet_frame, virtioSerial_frame,
      virtioFs_frame, timeSync_frame.
Qed.

Lemma VMComponent_run (c : VMComponent) : ToCmdLine c = ((ToCmdLine c).1, c).
Proof. rewrite <-(VMComponent_frame c) at 3. by destruct (ToCmdLine c). Qed.

(** A component that fails returns no token. *)
Lemma VMComponent_failure (c : VMComponent) (toks : list string) (e : error) :
  (ToCmdLine c).1 = (toks, Some e) → toks = [].
Proof.
  destruct c as [[]|[]|[]|[]|[]|[[] ?]|[]|[]|[]]; run_method; congruence.
Qed.

(** ** The device loop *)

Lemma store_device_same (pre devs : list VirtioDevice) dev vm :
  devices vm = pre ++ dev :: devs → store_device (List.length pre) dev vm = vm.
Proof.
  intros Hvm. unfold store_device, set_devices. destruct vm as [c m b ds].
  cbn in *. f_equal. apply list_insert_id. subst ds.
  by rewrite lookup_app_r, Nat.sub_diag by lia.
Qed.

(** The loop visits the elements of [vm.devices] from the [i]-th on and leaves
    [vm] as it found it. *)
Lemma range_devices_run (devs : list VirtioDevice) :
  ∀ (pre : list VirtioDevice) (args : list string) (vm : VirtualMachine),
    devices vm = pre ++ devs →
    range_devices devs (List.length pre) args vm = (range_value devs args, vm).
Proof.
  induction devs as [|dev devs IH]; intros pre args vm Hvm; [done|].
  cbn [range_devices range_value].
  unfold mbind, method_bind, invoke. rewrite (VMComponent_run dev).
  rewrite (store_device_same pre devs dev vm Hvm).
  destruct (ToCmdLine dev).1 as [devArgs [e|]]; [done|].
  specialize (IH (pre ++ [dev]) (args ++ devArgs) vm).
  rewrite length_app, Nat.add_1_r in IH. apply IH.
  by rewrite <-app_assoc.
Qed.

Lemma range_value_success (devs : list VirtioDevice) :
  ∀ args out,
    range_value devs args = (out, None) ↔
    ∃ devArgs : list (list string),
      Forall2 (λ dev toks, (ToCmdLine dev).1 = (toks, None)) devs devArgs
      ∧ out = args ++ List.concat devArgs.
Proof.
  induction devs as [|dev devs IH]; intros args out; cbn [range_value].
  - split.
    + intros [= <-]. exists []. split; [constructor|]. by rewrite app_nil_r.
    + intros (devArgs & Hall & ->). apply Forall2_nil_inv_l in Hall as ->.
      by rewrite app_nil_r.
  - destruct (ToCmdLine dev).1 as [toks [e|]] eqn:Hdev.
    + split; [done|]. intros (devArgs & Hall & _).
      apply Forall2_cons_inv_l in Hall as (? & ? & ? & _ & _). congruence.
    + rewrite IH. split.
      * intros (devArgs & Hall & ->). exists (toks :: devArgs).
        split; [by constructor|]. by rewrite <-app_assoc.
      * intros (devArgs & Hall & ->).
        apply Forall2_cons_inv_l in Hall as (toks' & devArgs' & Htoks & Hall & ->).
        assert (toks' = toks) as -> by congruence.
        exists devArgs'. split; [done|]. by rewrite <-app_assoc.
Qed.

Lemma range_value_failure (devs : list VirtioDevice) :
  ∀ args out e, range_value devs args = (out, Some e) →
    out = [] ∧ ∃ dev, dev ∈ devs ∧ (ToCmdLine dev).1.2 = Some e.
Proof.
  induction devs as [|dev devs IH]; intros args out e; cbn [range_value]; [done|].
  destruct (ToCmdLine dev).1 as [toks [e'|]] eqn:Hdev.
  - intros [= <- <-]. split; [done|]. exists dev. rewrite Hdev. split; [left|done].
  - intros (-> & dev' & ? & ?)%IH. split; [done|]. exists dev'. split; [by right|done].
Qed.

Lemma range_value_fails (devs : list VirtioDevice) :
  ∀ args, Exists (λ dev, is_Some (ToCmdLine dev).1.2) devs →
    ∃ e, range_value devs args = ([], Some e).
Proof.
  induction devs as [|dev devs IH]; intros args Hex; cbn [range_value].
  - by apply Exists_nil in Hex.
  - destruct (ToCmdLine dev).1 as [toks [e'|]] eqn:Hdev; [by eexists|].
    apply Exists_cons in Hex as [Hd|Hex]; [|by apply IH].
    rewrite Hdev in Hd. by destruct Hd.
Qed.

(** ** The encoder as a function of the receiver *)

Lemma VirtualMachine_ToCmdLine_run (vm : VirtualMachine) :
  ToCmdLine vm =
  (match bootloader vm with
   | None => ([], Some (Errorf "missing bootloader configuration"))
   | Some b =>
       match (ToCmdLine b).1 with
       | (_, Some e) => ([], Some e)
       | (bootloaderArgs, None) =>
           range_value (devices vm)
             (cpus_tokens vm ++ memory_tokens vm ++ bootloaderArgs)
       end
   end, vm).
Proof.
  unfold ToCmdLine at 1, VirtualMachine_cmd, VirtualMachine_ToCmdLine.
  unfold mbind, method_bind, gets, invoke.
  destruct (bootloader vm) as [b|] eqn:Hb; [|done].
  rewrite (VMComponent_run b).
  assert (set_bootloader (Some b) vm = vm) as ->.
  { destruct vm; cbn in *. by subst. }
  destruct (ToCmdLine b).1 as [bootloaderArgs [e|]]; [done|].
  rewrite (range_devices_run (devices vm) [] _ vm eq_refl).
  do 2 f_equal. unfold cpus_tokens, memory_tokens.
  repeat case_bool_decide; try done; by rewrite <-?app_assoc.
Qed.

Example format_uint : FormatUint 4096 = "4096" ∧ FormatUint 0 = "0".
Proof. by vm_compute. Qed.

Lemma AddDevice_devices (devs : list VirtioDevice) :
  ∀ vm, devices (foldl (λ vm dev, (AddDevice dev vm).2) vm devs)
        = devices vm ++ devs.
Proof.
  induction devs as [|dev devs IH]; intros vm; cbn [foldl].
  - by rewrite app_nil_r.
  - rewrite IH. unfold AddDevice, mbind, method_bind, modify. cbn.
    by rewrite <-app_assoc.
Qed.

(** [AddDevice], unlike [ToCmdLine], assigns to its receiver. *)
Example AddDevice_changes_vm :
  (AddDevice (RNG Build_virtioRNG) example_vm).2 ≠ example_vm.
Proof. by vm_compute. Qed.

(** ** The virtual machine encoder *)

(** C1: a successful [vm.ToCmdLine()] returns the [--cpus] pair when
    [vcpus] is not 0, then the [--memory] pair when [memoryBytes] is not 0,
    then the tokens of the bootloader, then the tokens of every device, one
    device after the other in the order of [vm.devices], nothing being
    re-ordered, dropped or merged; and it succeeds exactly when the bootloader
    and all devices render.  [AddDevice] appends, so the order of
    [vm.devices] is the order in which the devices were added. *)
Theorem VirtualMachine_ToCmdLine_tokens (vm : VirtualMachine) (args : list string) :
  ((ToCmdLine vm).1 = (args, None) ↔
   ∃ (b : Bootloader) (bootloaderArgs : list string)
     (devArgs : list (list string)),
     bootloader vm = Some b
     ∧ (ToCmdLine b).1 = (bootloaderArgs, None)
     ∧ Forall2 (λ dev toks, (ToCmdLine dev).1 = (toks, None)) (devices vm) devArgs
     ∧ args =
         (if bool_decide (vcpus vm ≠ 0%N)
          then ["--cpus"; FormatUint (vcpus vm)] else [])
         ++ (if bool_decide (memoryBytes vm ≠ 0%N)
             then ["--memory"; FormatUint (memoryBytes vm)] else [])
         ++ bootloaderArgs ++ List.concat devArgs)
  ∧ (∀ devs : list VirtioDevice,
       devices (foldl (λ vm dev, (AddDevice dev vm).2) vm devs)
       = devices vm ++ devs).
Proof.
  split; [|intros devs; apply AddDevice_devices].
  rewrite VirtualMachine_ToCmdLine_run. cbn [fst].
  assert (∀ bArgs dArgs,
    (if bool_decide (vcpus vm ≠ 0%N)
     then ["--cpus"; FormatUint (vcpus vm)] else [])
    ++ (if bool_decide (memoryBytes vm ≠ 0%N)
        then ["--memory"; FormatUint (memoryBytes vm)] else [])
    ++ bArgs ++ List.concat dArgs
    = (cpus_tokens vm ++ memory_tokens vm ++ bArgs) ++ List.concat dArgs)
    as Hshape.
  { intros. unfold cpus_tokens, memory_tokens.
    repeat case_bool_decide; try done; by rewrite <-?app_assoc. }
  destruct (bootloader vm) as [b|].
  - destruct (ToCmdLine b).1 as [bootloaderArgs [e|]] eqn:Hb.
    + split; [done|]. intros (b' & ? & ? & [= <-] & ? & _). congruence.
    + rewrite range_value_success. split.
      * intros (devArgs & Hall & ->).
        exists b, bootloaderArgs, devArgs. by rewrite Hshape.
      * intros (b' & bArgs & devArgs & [= <-] & Hb' & Hall & ->).
        assert (bArgs = bootloaderArgs) as -> by congruence.
        exists devArgs. by rewrite Hshape.
  - split; [done|]. by intros (? & ? & ? & [=] & _).
Qed.

Lemma VirtualMachine_ToCmdLine_tokens_witness :
  ∃ (b : Bootloader) (bootloaderArgs : list string)
    (devArgs : list (list string)),
    bootloader example_vm = Some b
    ∧ (ToCmdLine b).1 = (bootloaderArgs, None)
    ∧ Forall2 (λ dev toks, (ToCmdLine dev).1 = (toks, None))
        (devices example_vm) devArgs
    ∧ example_vm_tokens =
        (if bool_decide (vcpus example_vm ≠ 0%N)
         then ["--cpus"; FormatUint (vcpus example_vm)] else [])
        ++ (if bool_decide (memoryBytes example_vm ≠ 0%N)
            then ["--memory"; FormatUint (memoryBytes example_vm)] else [])
        ++ bootloaderArgs ++ List.concat devArgs.
Proof.
  apply (proj1 (proj1 (VirtualMachine_ToCmdLine_tokens example_vm example_vm_tokens))).
  vm_compute. reflexivity.
Defined.

(** C2: a virtual machine without bootloader fails with the
    missing-bootloader error whatever its devices are, a failing device
    included; a failing [ToCmdLine] returns no token; and a missing
    bootloader, a bootloader that fails to render, or a device that fails to
    render each make [ToCmdLine] fail. *)
Theorem VirtualMachine_ToCmdLine_all_or_nothing (vm : VirtualMachine) :
  (bootloader vm = None →
   ∀ devs : list VirtioDevice,
     ToCmdLine (set_devices devs vm)
     = (([], Some (Errorf "missing bootloader configuration")),
        set_devices devs vm))
  ∧ (∀ args e, (ToCmdLine vm).1 = (args, Some e) → args = [])
  ∧ (bootloader vm = None
     ∨ (∃ b : Bootloader, bootloader vm = Some b ∧ is_Some (ToCmdLine b).1.2)
     ∨ Exists (λ dev : VirtioDevice, is_Some (ToCmdLine dev).1.2) (devices vm) →
     ∃ e, (ToCmdLine vm).1 = ([], Some e)).
Proof.
  split; [|split].
  - intros Hnil devs. rewrite VirtualMachine_ToCmdLine_run. cbn. by rewrite Hnil.
  - intros args e. rewrite VirtualMachine_ToCmdLine_run. cbn [fst].
    destruct (bootloader vm) as [b|]; [|congruence].
    destruct (ToCmdLine b).1 as [bootloaderArgs [e'|]]; [congruence|].
    by intros [-> _]%range_value_failure.
  - rewrite VirtualMachine_ToCmdLine_run. cbn [fst].
    intros [Hnil|[(b & Hb & Hfail)|Hdev]].
    + rewrite Hnil. by eexists.
    + rewrite Hb. destruct (ToCmdLine b).1 as [? [e|]]; [by eexists|].
      by destruct Hfail.
    + destruct (bootloader vm) as [b|]; [|by eexists].
      destruct (ToCmdLine b).1 as [? [e|]]; [by eexists|].
      by apply range_value_fails.
Qed.

Lemma VirtualMachine_ToCmdLine_all_or_nothing_witness :
  ToCmdLine (set_devices [Blk {| imagePath := "" |}] headless_vm)
  = (([], Some (Errorf "missing bootloader configuration")),
     set_devices [Blk {| imagePath := "" |}] headless_vm)
  ∧ ([] : list string) = []
  ∧ ∃ e, (ToCmdLine example_vm_bad).1 = ([], Some e).
Proof.
  split; [|split].
  - apply (proj1 (VirtualMachine_ToCmdLine_all_or_nothing headless_vm)).
    reflexivity.
  - apply (proj1 (proj2 (VirtualMachine_ToCmdLine_all_or_nothing headless_vm))
             [] (Errorf "missing bootloader configuration")).
    vm_compute. reflexivity.
  - apply (proj2 (proj2 (VirtualMachine_ToCmdLine_all_or_nothing example_vm_bad))).
    right. right. apply Exists_cons_tl, Exists_cons_hd. vm_compute. by eexists.
Defined.

(** C9: [vm.ToCmdLine()] leaves [vm] as it found it (the same [vcpus],
    [memoryBytes], bootloader and devices, whether it succeeds or fails), so a
    second call returns what the first one returned. *)
Theorem VirtualMachine_ToCmdLine_frame (vm : VirtualMachine) :
  (ToCmdLine vm).2 = vm
  ∧ vcpus (ToCmdLine vm).2 = vcpus vm
  ∧ memoryBytes (ToCmdLine vm).2 = memoryBytes vm
  ∧ bootloader (ToCmdLine vm).2 = bootloader vm
  ∧ devices (ToCmdLine vm).2 = devices vm
  ∧ (ToCmdLine (ToCmdLine vm).2).1 = (ToCmdLine vm).1.
Proof.
  assert ((ToCmdLine vm).2 = vm) as Hframe
    by by rewrite VirtualMachine_ToCmdLine_run.
  by rewrite !Hframe.
Qed.

(** ** The tokens of the components *)

(** C6, as stated, fails on the linux bootloader: it renders six tokens,
    none of them [--bootloader]. *)
Lemma linuxBootloader_six_tokens :
  is_bootloader linux_example = true
  ∧ (ToCmdLine linux_example).1
    = (["--kernel"; "/boot/vmlinuz"; "--initrd"; "/boot/initrd";
        "--kernel-cmdline"; "console=hvc0"], None)
  ∧ ¬ ∃ flag value : string, (ToCmdLine linux_example).1 = ([flag; value], None).
Proof.
  split; [done|]. split; [done|]. by intros (flag & value & [=]).
Qed.

(** C6, amended: a successful render of an efi bootloader or of a device
    returns exactly two tokens, the flag ([--bootloader] for the former,
    [--device] for the latter) and one value, the comma-joined variant tag and
    fields of the grammar, in its order, [create], [nat], [listen] and
    [connect] being bare; a successful render of a linux bootloader returns
    the six tokens [--kernel P --initrd I --kernel-cmdline C]. *)
Theorem component_tokens (c : VMComponent) (args : list string) :
  (ToCmdLine c).1 = (args, None) →
  (is_device c = true ∨ (∃ b, c = EfiBootloader b) →
   args = [grammar_flag c; Join (grammar_value c) ","]
   ∧ grammar_flag c = (if is_device c then "--device" else "--bootloader"))
  ∧ (∀ b, c = LinuxBootloader b →
     args = ["--kernel"; vmlinuzPath b; "--initrd"; initrdPath b;
             "--kernel-cmdline"; kernelCmdLine b]).
Proof.
  intros Hrun. split.
  - intros Hc.
    destruct c as [[]|[? []]|[? ? []]|[]|[]|[[] mac]|[]|[]|[]]; cbn in Hc;
      try (destruct Hc as [[=]|[? [=]]]; fail); clear Hc;
      run_method; simplify_eq; try done.
    all: destruct mac; done.
  - intros b ->. destruct b. run_method; by simplify_eq.
Qed.

Lemma component_tokens_witness :
  ["--device"; "virtio-vsock,port=1024,socketURL=/tmp/vsock.sock,listen"]
  = [grammar_flag (Vsock {| Port := 1024; SocketURL := "/tmp/vsock.sock"; Listen := true |});
     Join (grammar_value (Vsock {| Port := 1024; SocketURL := "/tmp/vsock.sock"; Listen := true |})) ","]
  ∧ ["--kernel"; "/boot/vmlinuz"; "--initrd"; "/boot/initrd";
     "--kernel-cmdline"; "console=hvc0"]
    = ["--kernel"; "/boot/vmlinuz"; "--initrd"; "/boot/initrd";
       "--kernel-cmdline"; "console=hvc0"].
Proof.
  split.
  - apply (proj1 (component_tokens
      (Vsock {| Port := 1024; SocketURL := "/tmp/vsock.sock"; Listen := true |})
      _ ltac:(vm_compute; reflexivity))).
    left. reflexivity.
  - apply (proj2 (component_tokens linux_example _ ltac:(vm_compute; reflexivity))
             {| vmlinuzPath := "/boot/vmlinuz"; kernelCmdLine := "console=hvc0";
                initrdPath := "/boot/initrd" |}).
    reflexivity.
Defined.

(** C7: [VirtioVsock.ToCmdLine] fails, with the error that names the port
    and the socket URL, exactly when [Port] is 0 or [SocketURL] is empty, and
    otherwise returns [--device] and
    [virtio-vsock,port=<Port>,socketURL=<SocketURL>,<dir>], where [<dir>] is
    [listen] when [Listen] is set and [connect] when it is not. *)
Theorem VirtioVsock_ToCmdLine_spec (dev : VirtioVsock) :
  (is_Some (ToCmdLine dev).1.2 ↔ Port dev = 0%N ∨ SocketURL dev = "")
  ∧ (Port dev = 0%N ∨ SocketURL dev = "" →
     ToCmdLine dev
     = (([], Some (Errorf "virtio-vsock needs both a port and a socket URL")), dev))
  ∧ (Port dev ≠ 0%N → SocketURL dev ≠ "" →
     ToCmdLine dev
     = ((["--device";
          "virtio-vsock,port=" +:+ FormatUint (Port dev) +:+ ",socketURL="
            +:+ SocketURL dev +:+ ","
            +:+ (if Listen dev then "listen" else "connect")], None), dev)).
Proof.
  destruct dev as [port url listen]. cbn [Port SocketURL Listen].
  unfold_method. cbn [Port SocketURL Listen].
  destruct (decide (port = 0%N)) as [->|Hport].
  { cbn. split; [split; [by left|by eexists]|]. split; [done|]. by intros []. }
  rewrite (bool_decide_eq_false_2 _ Hport). cbn [orb].
  case_bool_decide as Hurl.
  - split; [split; [by right|by eexists]|]. split; [done|]. by intros _ [].
  - split; [split; [by intros [? [=]]|by intros [|]]|]. split; [by intros [|]|].
    intros _ _. by destruct listen.
Qed.

Lemma VirtioVsock_ToCmdLine_spec_witness :
  ToCmdLine {| Port := 0; SocketURL := "/tmp/vsock.sock"; Listen := true |}
  = (([], Some (Errorf "virtio-vsock needs both a port and a socket URL")),
     {| Port := 0; SocketURL := "/tmp/vsock.sock"; Listen := true |})
  ∧ ToCmdLine {| Port := 1024; SocketURL := "/tmp/vsock.sock"; Listen := false |}
    = ((["--device";
         "virtio-vsock,port=" +:+ FormatUint 1024 +:+ ",socketURL="
           +:+ "/tmp/vsock.sock" +:+ "," +:+ "connect"], None),
       {| Port := 1024; SocketURL := "/tmp/vsock.sock"; Listen := false |}).
Proof.
  split.
  - apply (proj1 (proj2 (VirtioVsock_ToCmdLine_spec
      {| Port := 0; SocketURL := "/tmp/vsock.sock"; Listen := true |}))).
    left. reflexivity.
  - apply (proj2 (proj2 (VirtioVsock_ToCmdLine_spec
      {| Port := 1024; SocketURL := "/tmp/vsock.sock"; Listen := false |})));
      cbn; discriminate.
Defined.

Example vsock_tokens :
  (ToCmdLine {| Port := 1024; SocketURL := "/tmp/vsock.sock"; Listen := false |}).1
  = (["--device"; "virtio-vsock,port=1024,socketURL=/tmp/vsock.sock,connect"], None).
Proof. vm_compute. reflexivity. Qed.

(** C8: a virtio-fs device with a shared directory and no mount tag renders
    [--device] and [virtio-fs,sharedDir=<dir>], without [mountTag] key; a
    timeSync component with [vsockPort] 0 renders [--timesync] and the empty
    string, and with [vsockPort] N, not 0, it renders [--timesync] and
    [vsockPort=N]. *)
Theorem optional_fields_omitted :
  (∀ dir : string, dir ≠ "" →
     ToCmdLine {| sharedDir := dir; mountTag := "" |}
     = ((["--device"; "virtio-fs,sharedDir=" +:+ dir], None),
        {| sharedDir := dir; mountTag := "" |}))
  ∧ (ToCmdLine {| sharedDir := "/host/share"; mountTag := "" |}).1
    = (["--device"; "virtio-fs,sharedDir=/host/share"], None)
  ∧ ToCmdLine {| vsockPort := 0 |}
    = ((["--timesync"; ""], None), {| vsockPort := 0 |})
  ∧ (∀ n : N, n ≠ 0%N →
       ToCmdLine {| vsockPort := n |}
       = ((["--timesync"; "vsockPort=" +:+ FormatUint n], None),
          {| vsockPort := n |})).
Proof.
  split; [|split; [done|split; [done|]]].
  - intros dir Hdir. by run_method.
  - intros n Hn. by run_method.
Qed.

Lemma optional_fields_omitted_witness :
  ToCmdLine {| sharedDir := "/srv"; mountTag := "" |}
  = ((["--device"; "virtio-fs,sharedDir=" +:+ "/srv"], None),
     {| sharedDir := "/srv"; mountTag := "" |})
  ∧ ToCmdLine {| vsockPort := 1234 |}
    = ((["--timesync"; "vsockPort=" +:+ FormatUint 1234], None),
       {| vsockPort := 1234 |}).
Proof.
  split.
  - apply (proj1 optional_fields_omitted "/srv"). discriminate.
  - apply (proj2 (proj2 (proj2 optional_fields_omitted)) 1234%N). discriminate.
Defined.

(** ** [VirtioNetNew] *)

Lemma parse_bytes_nonempty (n : nat) (s : string) (sep : ascii) (hw : HardwareAddr) :
  n ≠ 0 → parse_bytes n s sep = Some hw → hw ≠ [].
Proof.
  destruct n as [|n]; [done|]. intros _ Hparse ->.
  cbn [parse_bytes] in Hparse. by simplify_option_eq.
Qed.

Lemma parse_words_nonempty (n : nat) (s : string) (sep : ascii) (hw : HardwareAddr) :
  n ≠ 0 → parse_words n s sep = Some hw → hw ≠ [].
Proof.
  destruct n as [|n]; [done|]. intros _ Hparse ->.
  cbn [parse_words] in Hparse. by simplify_option_eq.
Qed.

(** A MAC address that parses has 6, 8 or 20 bytes; in particular it is not
    empty. *)
Lemma net_ParseMAC_success (s : string) (hw : HardwareAddr) :
  net_ParseMAC s = (hw, None) → hw ≠ [].
Proof.
  unfold net_ParseMAC, invalid_MAC.
  repeat case_bool_decide; try done.
  - destruct (parse_bytes _ s _) eqn:Hparse; [|done]. intros [= <-].
    eapply parse_bytes_nonempty; [|done]. lia.
  - destruct (parse_words _ s _) eqn:Hparse; [|done]. intros [= <-].
    eapply parse_words_nonempty; [|done].
    assert ((2 * (String.length s + 1)) `div` 5 = 6
            ∨ (2 * (String.length s + 1)) `div` 5 = 8
            ∨ (2 * (String.length s + 1)) `div` 5 = 20) as [-> | [-> | ->]] by lia;
      done.
Qed.

Section VirtioNetNew.
(** [net.ParseMAC], of which the proofs only use that the address of a
    successful parse is not empty. *)
Variable ParseMAC : string → HardwareAddr * option error.
Hypothesis ParseMAC_success :
  ∀ s hw, ParseMAC s = (hw, None) → hw ≠ [].

(** C10: [VirtioNetNew] returns an error exactly when [macAddress] is not
    empty and does not parse as a hardware address, and then no device;
    a device it returns has [nat] set, so its [ToCmdLine] never takes the
    branch of the nat-only error and always succeeds, with [--device] and
    [virtio-net,nat] when [macAddress] is empty and [--device] and
    [virtio-net,nat,mac=<ADDR>], the parsed address printed, otherwise. *)
Theorem VirtioNetNew_spec (macAddress : string) :
  (is_Some (VirtioNetNew ParseMAC macAddress).2
   ↔ macAddress ≠ "" ∧ is_Some (ParseMAC macAddress).2)
  ∧ (is_Some (VirtioNetNew ParseMAC macAddress).2
     → (VirtioNetNew ParseMAC macAddress).1 = None)
  ∧ ((VirtioNetNew ParseMAC macAddress).2 = None
     → ∃ net : virtioNet,
         (VirtioNetNew ParseMAC macAddress).1 = Some (Net net)
         ∧ net_nat net = true
         ∧ (ToCmdLine (Net net)).1.2
           ≠ Some (Errorf "virtio-net only support 'nat' networking")
         ∧ ToCmdLine (Net net)
           = ((["--device";
                if bool_decide (macAddress = "") then "virtio-net,nat"
                else "virtio-net,nat,mac="
                     +:+ HardwareAddr_String (ParseMAC macAddress).1],
               None), Net net)).
Proof.
  unfold VirtioNetNew. case_bool_decide as Hmac.
  - destruct (ParseMAC macAddress) as [hw [e|]] eqn:Hparse; cbn.
    + split; [split; [done|by eexists]|]. split; [done|]. done.
    + split; [split; [by intros [? [=]]|by intros [_ [? [=]]]]|].
      split; [by intros [? [=]]|]. intros _.
      eexists. split; [done|]. split; [done|].
      pose proof (ParseMAC_success _ _ Hparse) as Hhw.
      run_method; first [done | by destruct hw].
  - subst macAddress. cbn.
    split; [split; [by intros [? [=]]|by intros [[] _]]|].
    split; [by intros [? [=]]|]. intros _.
    eexists. split; [done|]. split; [done|]. done.
Qed.
End VirtioNetNew.

Lemma VirtioNetNew_spec_witness :
  (∀ s hw, net_ParseMAC s = (hw, None) → hw ≠ [])
  ∧ (VirtioNetNew net_ParseMAC "00:1b:2C:33:44:5g").1 = None
  ∧ ∃ net : virtioNet,
      (VirtioNetNew net_ParseMAC "00:1b:2C:33:44:55").1 = Some (Net net)
      ∧ net_nat net = true
      ∧ (ToCmdLine (Net net)).1.2
        ≠ Some (Errorf "virtio-net only support 'nat' networking")
      ∧ ToCmdLine (Net net)
        = ((["--device";
             if bool_decide ("00:1b:2C:33:44:55" = "") then "virtio-net,nat"
             else "virtio-net,nat,mac="
                  +:+ HardwareAddr_String (net_ParseMAC "00:1b:2C:33:44:55").1],
            None), Net net).
Proof.
  split; [exact net_ParseMAC_success|]. split.
  - apply (proj1 (proj2 (VirtioNetNew_spec net_ParseMAC net_ParseMAC_success
                           "00:1b:2C:33:44:5g"))).
    vm_compute. by eexists.
  - apply (proj2 (proj2 (VirtioNetNew_spec net_ParseMAC net_ParseMAC_success
                           "00:1b:2C:33:44:55"))).
    vm_compute. reflexivity.
Defined.

Example net_tokens :
  (VirtioNetNew net_ParseMAC "00-1b-2C-33-44-55").1
  = Some (Net {| net_nat := true; macAddress := [0; 27; 44; 51; 68; 85]%N |})
  ∧ (ToCmdLine (Net {| net_nat := true; macAddress := [0; 27; 44; 51; 68; 85]%N |})).1
    = (["--device"; "virtio-net,nat,mac=00:1b:2c:33:44:55"], None)
  ∧ (ToCmdLine (Net {| net_nat := true; macAddress := [] |})).1
    = (["--device"; "virtio-net,nat"], None).
Proof. vm_compute. done. Qed.

(** ** The list value: the tests of [string_slice_test.go] *)

Example TestEmptySS : List.length (contents_after Set_ None []) = 0.
Proof. reflexivity. Qed.

Example TestEmptySSValue : List.length (contents_after Set_ None [""]) = 0.
Proof. reflexivity. Qed.

Example TestSS :
  elements_agree ["one"; "two"; "4"; "3"] (contents_after Set_ None ["one,two,4,3"])
  = true.
Proof. vm_compute. reflexivity. Qed.

Example TestSSDoubleQuotes :
  contents_after Set_ None
    ["a=" +:+ quoted "one" +:+ "," +:+ quoted "two" +:+ "=b,three"]
  = ["a=" +:+ quoted "one"; quoted "two" +:+ "=b"; "three"].
Proof. vm_compute. reflexivity. Qed.

Example TestSSDefault :
  elements_agree ["default"; "values"]
    (contents_after Set_ (Some ["default"; "values"]) []) = true.
Proof. vm_compute. reflexivity. Qed.

Example TestSSWithDefault :
  elements_agree ["one"; "two"; "4"; "3"]
    (contents_after Set_ (Some ["default"; "values"]) ["one,two,4,3"]) = true.
Proof. vm_compute. reflexivity. Qed.

(** With a [Set] that always appends, [TestSSWithDefault] fails at its first
    comparison: the first element is [default], not [one]. *)
Example Set_always_append_fails_test :
  elements_agree ["one"; "two"; "4"; "3"]
    (contents_after Set_always_append (Some ["default"; "values"]) ["one,two,4,3"])
  = false.
Proof. vm_compute. reflexivity. Qed.

Example TestSSCalledTwice :
  contents_after Set_ None ["one,two"; "three"] = ["one"; "two"; "three"].
Proof. vm_compute. reflexivity. Qed.

Example TestSSWithComma :
  contents_after Set_ None
    [quoted "one,two"; quoted "three"; quoted "four,five" +:+ ",six"]
  = ["one,two"; "three"; "four,five"; "six"].
Proof. vm_compute. reflexivity. Qed.

Example TestSSWithSquareBrackets :
  contents_after Set_ None [quoted "[a-z]"; quoted "[a-z]+"] = ["[a-z]"; "[a-z]+"].
Proof. vm_compute. reflexivity. Qed.

Example TestSSAsSliceValue :
  (GetSlice (Replace ["three"] (Parse Set_ ["one"; "two"] zero_stringSliceValue).2).2).1
  = ["three"].
Proof. vm_compute. reflexivity. Qed.

(** ** Strings *)

Lemma string_app_cons (c : ascii) (s t : string) :
  String c s +:+ t = String c (s +:+ t).
Proof. reflexivity. Qed.

Lemma string_app_nil_l (t : string) : "" +:+ t = t.
Proof. reflexivity. Qed.

Lemma string_app_nil_r (s : string) : s +:+ "" = s.
Proof. induction s; [done|]. rewrite string_app_cons. congruence. Qed.

Lemma string_app_assoc (s1 s2 s3 : string) :
  (s1 +:+ s2) +:+ s3 = s1 +:+ (s2 +:+ s3).
Proof. induction s1; [done|]. rewrite !string_app_cons. congruence. Qed.

Lemma string_app_cons_r (s1 s2 : string) (c : ascii) :
  (s1 +:+ String c "") +:+ s2 = s1 +:+ String c s2.
Proof. by rewrite string_app_assoc. Qed.

Lemma string_length_app (s1 s2 : string) :
  String.length (s1 +:+ s2) = String.length s1 + String.length s2.
Proof. induction s1; [done|]. rewrite string_app_cons. cbn. congruence. Qed.

Lemma string_get_app_end (s : string) (c : ascii) (rest : string) :
  String.get (String.length s) (s +:+ String c rest) = Some c.
Proof. induction s; [done|]. by rewrite string_app_cons. Qed.

Lemma string_substring_app (s rest : string) :
  String.substring 0 (String.length s) (s +:+ rest) = s.
Proof.
  induction s; [by destruct rest|]. rewrite string_app_cons. cbn. congruence.
Qed.

(** A string that is not empty is its last character after the others. *)
Lemma string_snoc (s : string) :
  ∀ (n : nat) (c : ascii),
    String.length s = S n → String.get n s = Some c →
    s = String.substring 0 n s +:+ String c "".
Proof.
  induction s as [|a s IH]; intros n c Hlen Hget; [done|].
  destruct n as [|n]; cbn in *.
  - destruct s; [|done]. rewrite string_app_nil_l. congruence.
  - rewrite string_app_cons. f_equal. apply IH; [lia|done].
Qed.

Lemma count_quotes_cons (c : ascii) (s : string) :
  count_quotes (String c s)
  = (if bool_decide (c = dquote) then 1 else 0) + count_quotes s.
Proof.
  unfold count_quotes. cbn [list_ascii_of_string filter list_filter].
  case_decide as Hc; rewrite ?bool_decide_eq_true_2, ?bool_decide_eq_false_2 by done;
    done.
Qed.

Lemma count_quotes_app (s1 s2 : string) :
  count_quotes (s1 +:+ s2) = count_quotes s1 + count_quotes s2.
Proof.
  induction s1 as [|c s1 IH]; [done|].
  rewrite string_app_cons, !count_quotes_cons, IH. lia.
Qed.

Lemma count_quotes_quoted (s : string) :
  count_quotes (quoted s) = 2 + count_quotes s.
Proof.
  unfold quoted. rewrite count_quotes_cons, count_quotes_app, count_quotes_cons.
  rewrite bool_decide_eq_true_2 by done. cbn. lia.
Qed.

Lemma has_comma_cons (c : ascii) (s : string) :
  has_comma (String c s) = bool_decide (c = ","%char) || has_comma s.
Proof.
  unfold has_comma. cbn [list_ascii_of_string].
  apply eq_true_iff_eq. rewrite orb_true_iff, !bool_decide_eq_true.
  rewrite elem_of_cons. split; (intros [?|?]; [left; congruence|by right]).
Qed.

(** ** Splitting *)

(** The scan goes through a field without ending an element. *)
Lemma splitFields_field (f : string) :
  ∀ (inQuotes b : bool) (cur rest : string),
    field_end inQuotes f = Some b →
    splitFields inQuotes cur (f +:+ rest) = splitFields b (cur +:+ f) rest.
Proof.
  induction f as [|c f IH]; intros inQuotes b cur rest Hend.
  - injection Hend as <-. by rewrite string_app_nil_l, string_app_nil_r.
  - rewrite string_app_cons. cbn [splitFields field_end] in *.
    rewrite <-(string_app_cons_r cur f c).
    case_bool_decide; [by apply IH|].
    destruct (bool_decide (c = ","%char) && negb inQuotes); [done|by apply IH].
Qed.

Lemma Join_cons (f f' : string) (fs : list string) (sep : string) :
  Join (f :: f' :: fs) sep = f +:+ sep +:+ Join (f' :: fs) sep.
Proof. reflexivity. Qed.

(** Splitting the fields joined with commas gives the fields back. *)
Lemma splitFields_Join (fs : list string) :
  ∀ f : string,
    Forall (λ f, field_end false f = Some false) (f :: fs) →
    splitFields false "" (Join (f :: fs) ",") = f :: fs.
Proof.
  induction fs as [|f' fs IH]; intros f [Hf Hfs]%Forall_cons.
  - cbn [Join String.concat]. rewrite <-(string_app_nil_r f) at 1.
    by rewrite (splitFields_field f false false "" "" Hf), string_app_nil_l.
  - rewrite Join_cons, (splitFields_field f false false "" _ Hf), string_app_nil_l.
    rewrite string_app_cons, string_app_nil_l.
    cbn [splitFields]. rewrite bool_decide_eq_false_2 by done.
    cbn. f_equal. by apply IH.
Qed.

Lemma Join_nonempty (f : string) (fs : list string) (sep : string) :
  f ≠ "" → Join (f :: fs) sep ≠ "".
Proof. destruct f; [done|]. by destruct fs. Qed.

(** A string without quote is scanned without a change of state, and without
    the end of an element if it has no comma or stands between quotes. *)
Lemma field_end_plain (e : string) :
  ∀ (inQuotes : bool) (rest : string),
    count_quotes e = 0 → inQuotes = true ∨ has_comma e = false →
    field_end inQuotes (e +:+ rest) = field_end inQuotes rest.
Proof.
  induction e as [|c e IH]; intros inQuotes rest Hq Hc; [done|].
  rewrite string_app_cons. cbn [field_end].
  rewrite count_quotes_cons in Hq. rewrite has_comma_cons in Hc.
  destruct (decide (c = dquote)) as [->|Hquote].
  { rewrite bool_decide_eq_true_2 in Hq by done. lia. }
  rewrite (bool_decide_eq_false_2 _ Hquote) in Hq |- *. cbn in Hq.
  destruct Hc as [->|[Hc Hc']%orb_false_iff].
  - rewrite andb_false_r. by apply IH; [|left].
  - rewrite Hc. cbn. by apply IH; [|right].
Qed.

(** ** Stripping the quotes *)

Lemma unquote_quoted (inner : string) :
  count_quotes inner = 0 → unquote (quoted inner) = inner.
Proof.
  intros Hq. unfold unquote, wrapped.
  assert (String.length (quoted inner) = S (S (String.length inner))) as Hlen.
  { unfold quoted. cbn. rewrite string_length_app. cbn. lia. }
  rewrite Hlen, count_quotes_quoted, Hq.
  replace (S (S (String.length inner)) - 1) with (S (String.length inner)) by lia.
  replace (S (S (String.length inner)) - 2) with (String.length inner) by lia.
  unfold quoted. cbn [String.get String.substring].
  rewrite string_get_app_end, string_substring_app.
  rewrite !bool_decide_eq_true_2 by (done || lia). done.
Qed.

(** Only the elements that are a string without quote between two quotes are
    changed. *)
Lemma wrapped_quoted (e : string) :
  wrapped e = true → ∃ inner, e = quoted inner ∧ count_quotes inner = 0.
Proof.
  unfold wrapped. rewrite !andb_true_iff, !bool_decide_eq_true.
  intros [[[Hlen Hfirst] Hlast] Hcount].
  destruct e as [|c rest]; [done|]. cbn in Hfirst. injection Hfirst as ->.
  cbn [String.length] in *.
  destruct (String.length rest) as [|n] eqn:Hrest; [lia|].
  replace (S (S n) - 1) with (S n) in Hlast by lia. cbn [String.get] in Hlast.
  pose proof (string_snoc rest n dquote Hrest Hlast) as Hsnoc.
  exists (String.substring 0 n rest). split; [unfold quoted; by rewrite <-Hsnoc|].
  rewrite Hsnoc, count_quotes_cons, count_quotes_app, count_quotes_cons in Hcount.
  rewrite bool_decide_eq_true_2 in Hcount by done. cbn in Hcount. lia.
Qed.

Lemma unquote_plain (e : string) : count_quotes e = 0 → unquote e = e.
Proof.
  intros Hq. unfold unquote.
  destruct (wrapped e) eqn:Hw; [|done].
  apply wrapped_quoted in Hw as (inner & -> & _).
  rewrite count_quotes_quoted in Hq. lia.
Qed.

Lemma requote_field (e : string) :
  count_quotes e = 0 → field_end false (requote e) = Some false.
Proof.
  intros Hq. unfold requote. destruct (has_comma e) eqn:Hc.
  - unfold quoted. cbn [field_end negb]. rewrite bool_decide_eq_true_2 by done.
    by rewrite field_end_plain by auto.
  - rewrite <-(string_app_nil_r e). by rewrite field_end_plain by auto.
Qed.

Lemma unquote_requote (e : string) :
  count_quotes e = 0 → unquote (requote e) = e.
Proof.
  intros Hq. unfold requote.
  destruct (has_comma e); [by apply unquote_quoted|by apply unquote_plain].
Qed.

Lemma requote_nonempty (e : string) : e ≠ "" → requote e ≠ "".
Proof. unfold requote. by destruct e, (has_comma _). Qed.

Lemma readAsCSV_Join (f : string) (fs : list string) :
  Forall (λ f, field_end false f = Some false) (f :: fs) →
  Join (f :: fs) "," ≠ "" →
  readAsCSV (Join (f :: fs) ",") = unquote <$> (f :: fs).
Proof.
  intros Hfs Hne. unfold readAsCSV.
  by rewrite bool_decide_eq_false_2, splitFields_Join.
Qed.

Lemma Join_cons_ne (f : string) (fs : list string) (sep : string) :
  fs ≠ [] → Join (f :: fs) sep = f +:+ sep +:+ Join fs sep.
Proof. by destruct fs. Qed.

(** Splitting gives the fields back also when the last one ends inside
    quotes. *)
Lemma splitFields_Join_last (init : list string) :
  ∀ last : string,
    Forall (λ f, field_end false f = Some false) init →
    is_Some (field_end false last) →
    splitFields false "" (Join (init ++ [last]) ",") = init ++ [last].
Proof.
  induction init as [|f init IH]; intros last Hinit [b Hlast].
  - cbn [app Join String.concat]. rewrite <-(string_app_nil_r last) at 1.
    by rewrite (splitFields_field last false b "" "" Hlast), string_app_nil_l.
  - apply Forall_cons in Hinit as [Hf Hinit].
    cbn [app]. rewrite Join_cons_ne by (by destruct init).
    rewrite (splitFields_field f false false "" _ Hf), string_app_nil_l.
    rewrite string_app_cons, string_app_nil_l. cbn [splitFields].
    rewrite bool_decide_eq_false_2 by done. cbn. f_equal. by apply IH.
Qed.

Lemma readAsCSV_Join_last (init : list string) (last : string) :
  Forall (λ f, field_end false f = Some false) init →
  is_Some (field_end false last) →
  Join (init ++ [last]) "," ≠ "" →
  readAsCSV (Join (init ++ [last]) ",") = unquote <$> (init ++ [last]).
Proof.
  intros Hinit Hlast Hne. unfold readAsCSV.
  by rewrite bool_decide_eq_false_2, splitFields_Join_last.
Qed.

(** Every input is a sequence of fields joined with commas, of which only the
    last one may end inside quotes. *)
Lemma fields_of_input (s : string) :
  ∀ inQuotes : bool, ∃ (init : list string) (last : string),
    s = Join (init ++ [last]) ","
    ∧ match init with
      | [] => is_Some (field_end inQuotes last)
      | f :: init' =>
          field_end inQuotes f = Some false
          ∧ Forall (λ f, field_end false f = Some false) init'
          ∧ is_Some (field_end false last)
      end.
Proof.
  induction s as [|c s IH]; intros inQuotes.
  { exists [], "". split; [done|]. by eexists. }
  assert (∀ (b : bool) (init : list string) (last : string),
    (∀ f, field_end inQuotes (String c f) = field_end b f) →
    s = Join (init ++ [last]) "," →
    match init with
    | [] => is_Some (field_end b last)
    | f :: init' =>
        field_end b f = Some false
        ∧ Forall (λ f, field_end false f = Some false) init'
        ∧ is_Some (field_end false last)
    end →
    ∃ (init0 : list string) (last0 : string),
      String c s = Join (init0 ++ [last0]) ","
      ∧ match init0 with
        | [] => is_Some (field_end inQuotes last0)
        | f :: init' =>
            field_end inQuotes f = Some false
            ∧ Forall (λ f, field_end false f = Some false) init'
            ∧ is_Some (field_end false last0)
        end) as Hextend.
  { intros b [|f init] last Hstep -> Hok.
    - exists [], (String c last). split; [done|]. by rewrite Hstep.
    - exists (String c f :: init), last. split; [|by rewrite Hstep].
      cbn [app]. rewrite !Join_cons_ne by (by destruct init).
      by rewrite string_app_cons. }
  destruct (decide (c = dquote)) as [->|Hquote].
  { destruct (IH (negb inQuotes)) as (init & last & Hs & Hok).
    apply (Hextend (negb inQuotes) init last); [|done..].
    intros f. cbn [field_end]. by rewrite bool_decide_eq_true_2. }
  destruct (decide (c = ","%char)) as [->|Hcomma], inQuotes.
  - destruct (IH true) as (init & last & Hs & Hok).
    apply (Hextend true init last); [|done..].
    intros f. cbn [field_end]. by rewrite bool_decide_eq_false_2.
  - destruct (IH false) as (init & last & -> & Hok).
    exists ("" :: init), last. split.
    { cbn [app]. by rewrite Join_cons_ne by (by destruct init). }
    split; [done|]. destruct init as [|f init]; [by split|].
    destruct Hok as (Hf & Hinit & Hlast). split; [by constructor|done].
  - destruct (IH true) as (init & last & Hs & Hok).
    apply (Hextend true init last); [|done..].
    intros f. cbn [field_end]. by rewrite !bool_decide_eq_false_2.
  - destruct (IH false) as (init & last & Hs & Hok).
    apply (Hextend false init last); [|done..].
    intros f. cbn [field_end]. by rewrite !bool_decide_eq_false_2.
Qed.

(** ** The list value *)

(** C3: [Set] splits its input at the commas that stand outside quotes, a
    double quote toggling the inside-quotes state.  Every input that is not
    empty is a sequence of fields joined with commas, each field but the last
    with all its commas between quotes and its quotes closed, the last one
    possibly ending inside quotes; it is split into these very fields, and a
    quote that is never closed keeps the rest of the input in one element.
    An element that is a string without quote between two quotes loses these
    two quotes, and only such an element is changed;
    [a="one","two"=b,three] gives its three elements unchanged and
    ["four,five",six] gives [four,five] and [six]; the empty input gives no
    element. *)
Theorem readAsCSV_spec :
  (∀ (init : list string) (last : string),
     Forall (λ f, field_end false f = Some false) init →
     is_Some (field_end false last) →
     Join (init ++ [last]) "," ≠ "" →
     readAsCSV (Join (init ++ [last]) ",") = unquote <$> (init ++ [last]))
  ∧ (∀ raw : string, raw ≠ "" →
       ∃ (init : list string) (last : string),
         raw = Join (init ++ [last]) ","
         ∧ Forall (λ f, field_end false f = Some false) init
         ∧ is_Some (field_end false last)
         ∧ readAsCSV raw = unquote <$> (init ++ [last]))
  ∧ (∀ e : string, count_quotes e = 0 → readAsCSV (quoted e) = [e])
  ∧ (∀ e : string,
       count_quotes e = 0 → readAsCSV (String dquote e) = [String dquote e])
  ∧ (∀ inner : string, count_quotes inner = 0 → unquote (quoted inner) = inner)
  ∧ (∀ e : string,
       unquote e ≠ e → ∃ inner, e = quoted inner ∧ count_quotes inner = 0)
  ∧ readAsCSV ("a=" +:+ quoted "one" +:+ "," +:+ quoted "two" +:+ "=b,three")
    = ["a=" +:+ quoted "one"; quoted "two" +:+ "=b"; "three"]
  ∧ readAsCSV (quoted "four,five" +:+ ",six") = ["four,five"; "six"]
  ∧ readAsCSV "" = []
  ∧ (∀ raw : string,
       Set_ raw zero_stringSliceValue
       = (None, {| value := readAsCSV raw; changed := true |})).
Proof.
  split; [exact readAsCSV_Join_last|].
  split.
  { intros raw Hraw.
    destruct (fields_of_input raw false) as (init & last & -> & Hok).
    assert (Forall (λ f, field_end false f = Some false) init
            ∧ is_Some (field_end false last)) as [Hinit Hlast].
    { destruct init as [|f init]; [by split|].
      destruct Hok as (Hf & Hinit & Hlast). split; [by constructor|done]. }
    exists init, last. split; [done|]. split; [done|]. split; [done|].
    by apply readAsCSV_Join_last. }
  split.
  { intros e Hq.
    assert (field_end false (quoted e) = Some false) as Hf.
    { unfold quoted. cbn [field_end negb]. rewrite bool_decide_eq_true_2 by done.
      by rewrite field_end_plain by auto. }
    change (quoted e) with (Join [quoted e] ",") at 1.
    rewrite readAsCSV_Join; [|by repeat constructor|done].
    cbn. by rewrite unquote_quoted. }
  split.
  { intros e Hq.
    assert (field_end false (String dquote e) = Some true) as Hf.
    { cbn [field_end negb]. rewrite bool_decide_eq_true_2 by done.
      rewrite <-(string_app_nil_r e). by rewrite field_end_plain by auto. }
    change (String dquote e) with (Join ([] ++ [String dquote e]) ",") at 1.
    rewrite readAsCSV_Join_last; [|done|by eexists|done].
    cbn. f_equal. unfold unquote.
    destruct (wrapped (String dquote e)) eqn:Hw; [|done].
    apply wrapped_quoted in Hw as (inner & Heq & _).
    apply (f_equal count_quotes) in Heq.
    rewrite count_quotes_quoted, count_quotes_cons, Hq in Heq.
    rewrite bool_decide_eq_true_2 in Heq by done. lia. }
  split; [exact unquote_quoted|].
  split.
  { intros e He. apply wrapped_quoted. unfold unquote in He.
    by destruct (wrapped e). }
  by vm_compute.
Qed.

Lemma readAsCSV_spec_witness :
  readAsCSV (Join (["one"; quoted "two,2" +:+ "=b"] ++ [String dquote "4,5"]) ",")
  = unquote <$> (["one"; quoted "two,2" +:+ "=b"] ++ [String dquote "4,5"])
  ∧ (∃ (init : list string) (last : string),
       "a," +:+ String dquote "b,c" = Join (init ++ [last]) ","
       ∧ Forall (λ f, field_end false f = Some false) init
       ∧ is_Some (field_end false last)
       ∧ readAsCSV ("a," +:+ String dquote "b,c") = unquote <$> (init ++ [last]))
  ∧ readAsCSV (quoted "one,two") = ["one,two"]
  ∧ readAsCSV (String dquote "one,two") = [String dquote "one,two"]
  ∧ unquote (quoted "three") = "three"
  ∧ ∃ inner, quoted "[a-z]" = quoted inner ∧ count_quotes inner = 0.
Proof.
  split; [|split; [|split; [|split; [|split]]]].
  - apply (proj1 readAsCSV_spec ["one"; quoted "two,2" +:+ "=b"]
             (String dquote "4,5")).
    + repeat constructor.
    + by eexists.
    + vm_compute. discriminate.
  - apply (proj1 (proj2 readAsCSV_spec) ("a," +:+ String dquote "b,c")).
    vm_compute. discriminate.
  - apply (proj1 (proj2 (proj2 readAsCSV_spec)) "one,two"). reflexivity.
  - apply (proj1 (proj2 (proj2 (proj2 readAsCSV_spec))) "one,two"). reflexivity.
  - apply (proj1 (proj2 (proj2 (proj2 (proj2 readAsCSV_spec)))) "three").
    reflexivity.
  - apply (proj1 (proj2 (proj2 (proj2 (proj2 (proj2 readAsCSV_spec)))))
             (quoted "[a-z]")).
    vm_compute. discriminate.
Defined.

(** The unterminated quote: the rest of the input is one element. *)
Example unterminated_quote :
  readAsCSV ("a," +:+ String dquote "b,c") = ["a"; String dquote "b,c"].
Proof. vm_compute. reflexivity. Qed.

(** C4, as stated, fails: the first [Set] discards the default that
    [Replace] installed, it does not append to it. *)
Lemma Set_after_Replace_discards_default :
  value (Set_ "one,two,4,3"
           (Replace ["default"; "values"] zero_stringSliceValue).2).2
  = ["one"; "two"; "4"; "3"]
  ∧ value (Set_ "one,two,4,3"
             (Replace ["default"; "values"] zero_stringSliceValue).2).2
    ≠ ["default"; "values"] ++ readAsCSV "one,two,4,3".
Proof. by vm_compute. Qed.

(** C4, amended: [Replace(vs)] followed by no [Set] leaves the contents
    [vs]; [Replace(vs)] followed by one [Set(raw)] leaves
    [vs ++ parse(raw)] when a [Set] had executed before the [Replace], and
    [parse(raw)] alone when none had (the first [Set] discards the default);
    two successive [Set] calls append both batches in call order, so
    [Set("one,two")] then [Set("three")] gives [one], [two], [three]. *)
Theorem Replace_Set_spec (ss : stringSliceValue) (vs : list string)
    (raw raw' : string) :
  value (Replace vs ss).2 = vs
  ∧ value (Set_ raw (Replace vs ss).2).2
    = (if changed ss then vs ++ readAsCSV raw else readAsCSV raw)
  ∧ value (Set_ raw' (Set_ raw ss).2).2
    = value (Set_ raw ss).2 ++ readAsCSV raw'
  ∧ value (Set_ raw' (Set_ raw zero_stringSliceValue).2).2
    = readAsCSV raw ++ readAsCSV raw'
  ∧ value (Set_ "three" (Set_ "one,two" zero_stringSliceValue).2).2
    = ["one"; "two"; "three"].
Proof.
  destruct ss as [vals []]; by vm_compute.
Qed.

(** C5, as stated, fails on an element that holds a double quote. *)
Lemma String_roundtrip_fails_on_quotes :
  Forall (λ e, e ≠ "") (value {| value := [quoted "a"]; changed := true |})
  ∧ readAsCSV (String_ {| value := [quoted "a"]; changed := true |}).1 = ["a"]
  ∧ readAsCSV (String_ {| value := [quoted "a"]; changed := true |}).1
    ≠ value {| value := [quoted "a"]; changed := true |}.
Proof. split; [by repeat constructor|]. by vm_compute. Qed.

(** C5, amended: for every sequence of strings held in a list value, none
    of them empty and none of them holding a double quote, elements with
    commas included, parsing the rendering of the list value gives the
    sequence back. *)
Theorem String_roundtrip (ss : stringSliceValue) :
  Forall (λ e, e ≠ "" ∧ count_quotes e = 0) (value ss) →
  readAsCSV (String_ ss).1 = value ss
  ∧ value (Set_ (String_ ss).1 zero_stringSliceValue).2 = value ss.
Proof.
  intros Hvs.
  assert (readAsCSV (String_ ss).1 = value ss) as Hread; [|by split].
  unfold String_, mbind, method_bind, gets, mret, method_ret. cbn [fst].
  destruct (value ss) as [|e vs]; [done|].
  rewrite fmap_cons. rewrite readAsCSV_Join.
  - rewrite <-fmap_cons, <-list_fmap_compose.
    rewrite <-(list_fmap_id (e :: vs)) at 2.
    apply Forall_fmap_ext_1. eapply Forall_impl; [done|].
    intros e' [_ Hq]. by apply unquote_requote.
  - rewrite <-fmap_cons. apply Forall_fmap. eapply Forall_impl; [done|].
    intros e' [_ Hq]. by apply requote_field.
  - apply Join_nonempty, requote_nonempty. by apply Forall_cons in Hvs as [[? _] _].
Qed.

Lemma String_roundtrip_witness :
  readAsCSV (String_ {| value := ["one,two"; "three"; "4"]; changed := true |}).1
  = ["one,two"; "three"; "4"]
  ∧ value (Set_ (String_ {| value := ["one,two"; "three"; "4"]; changed := true |}).1
             zero_stringSliceValue).2
    = ["one,two"; "three"; "4"].
Proof.
  apply (String_roundtrip {| value := ["one,two"; "three"; "4"]; changed := true |}).
  repeat constructor; discriminate.
Defined.

Example String_example :
  (String_ {| value := ["one,two"; "three"; "4"]; changed := true |}).1
  = quoted "one,two" +:+ ",three,4".
Proof. vm_compute. reflexivity. Qed.

(** * Further properties of the encoder *)

(** ** Validity *)

Lemma component_valid (c : VMComponent) :
  (ToCmdLine c).1.2 = None ↔ valid c = true.
Proof.
  destruct c as [[]|[]|[]|[]|[]|[[] ?]|[]|[]|[]]; run_method;
    split; intros; try done; by simplify_eq.
Qed.

Lemma range_value_valid (devs : list VirtioDevice) :
  ∀ args, (range_value devs args).2 = None ↔ forallb valid devs = true.
Proof.
  induction devs as [|dev devs IH]; intros args; cbn [range_value forallb]; [done|].
  rewrite andb_true_iff, <-component_valid.
  destruct (ToCmdLine dev).1 as [toks [e|]]; cbn [snd].
  - split; [done|]. by intros [[=] _].
  - rewrite IH. split; [done|by intros [_ ?]].
Qed.

Lemma range_value_app (devs1 devs2 : list VirtioDevice) :
  ∀ args,
    range_value (devs1 ++ devs2) args
    = match range_value devs1 args with
      | (out, None) => range_value devs2 out
      | (_, Some e) => ([], Some e)
      end.
Proof.
  induction devs1 as [|dev devs1 IH]; intros args; [done|].
  cbn [app range_value]. destruct (ToCmdLine dev).1 as [toks [e|]]; [done|].
  apply IH.
Qed.

(** X1: [ToCmdLine] succeeds on a component exactly when its required fields
    are present, and on a virtual machine exactly when it has a bootloader and
    the bootloader and every device have theirs. *)
Theorem VirtualMachine_valid_spec (vm : VirtualMachine) :
  ((ToCmdLine vm).1.2 = None ↔ VirtualMachine_valid vm = true)
  ∧ (∀ c : VMComponent, (ToCmdLine c).1.2 = None ↔ valid c = true).
Proof.
  split; [|exact component_valid].
  rewrite VirtualMachine_ToCmdLine_run. unfold VirtualMachine_valid. cbn [fst].
  destruct (bootloader vm) as [b|]; [|done].
  rewrite andb_true_iff, <-component_valid.
  destruct (ToCmdLine b).1 as [toks [e|]]; cbn [snd].
  - split; [done|]. by intros [[=] _].
  - rewrite range_value_valid. split; [done|by intros [_ ?]].
Qed.

Lemma VirtualMachine_valid_spec_witness :
  (ToCmdLine example_vm).1.2 = None ∧ valid (Blk {| imagePath := "" |}) ≠ true.
Proof.
  split.
  - apply (proj1 (VirtualMachine_valid_spec example_vm)). reflexivity.
  - intros Hv.
    by pose proof (proj2 (proj2 (VirtualMachine_valid_spec example_vm) _) Hv).
Defined.

(** ** The first failure *)

Lemma range_value_valid_prefix (pre : list VirtioDevice) :
  ∀ args, forallb valid pre = true →
    ∃ out, ∀ devs, range_value (pre ++ devs) args = range_value devs out.
Proof.
  intros args Hpre. apply range_value_valid with (args := args) in Hpre.
  destruct (range_value pre args) as [out [e|]] eqn:Hrun; [done|].
  exists out. intros devs. by rewrite range_value_app, Hrun.
Qed.

(** X2: the error of [VirtualMachine.ToCmdLine] is the error of the first
    component that fails, the bootloader coming before the devices and the
    devices in their order: the error of a failing bootloader whatever the
    devices are, and otherwise the error of the first failing device
    whatever follows it.  In a linux bootloader the kernel path is checked
    first, then the initrd path, then the kernel command line. *)
Theorem VirtualMachine_ToCmdLine_first_failure (vm : VirtualMachine) :
  (∀ (b : Bootloader) toks e,
     bootloader vm = Some b → (ToCmdLine b).1 = (toks, Some e) →
     (ToCmdLine vm).1 = ([], Some e))
  ∧ (∀ (b : Bootloader) (pre rest : list VirtioDevice) (dev : VirtioDevice) toks e,
       bootloader vm = Some b → valid b = true →
       devices vm = pre ++ dev :: rest → forallb valid pre = true →
       (ToCmdLine dev).1 = (toks, Some e) →
       (ToCmdLine vm).1 = ([], Some e))
  ∧ (∀ b : linuxBootloader,
       (vmlinuzPath b = "" →
        (ToCmdLine b).1 = ([], Some (Errorf "Missing kernel path")))
       ∧ (vmlinuzPath b ≠ "" → initrdPath b = "" →
          (ToCmdLine b).1 = ([], Some (Errorf "Missing initrd path")))
       ∧ (vmlinuzPath b ≠ "" → initrdPath b ≠ "" → kernelCmdLine b = "" →
          (ToCmdLine b).1 = ([], Some (Errorf "Missing kernel command line")))).
Proof.
  split; [|split].
  - intros b toks e Hb Hrun. rewrite VirtualMachine_ToCmdLine_run. cbn [fst].
    by rewrite Hb, Hrun.
  - intros b pre rest dev toks e Hb Hvalid Hdevs Hpre Hdev.
    rewrite VirtualMachine_ToCmdLine_run. cbn [fst]. rewrite Hb, Hdevs.
    apply component_valid in Hvalid.
    destruct (ToCmdLine b).1 as [bootloaderArgs [e'|]]; [done|].
    destruct (range_value_valid_prefix pre
                (cpus_tokens vm ++ memory_tokens vm ++ bootloaderArgs) Hpre)
      as [out ->].
    cbn [range_value]. by rewrite Hdev.
  - intros [vmlinuz cmdline initrd]. cbn [vmlinuzPath initrdPath kernelCmdLine].
    split; [|split]; intros; by run_method.
Qed.

Lemma VirtualMachine_ToCmdLine_first_failure_witness :
  (ToCmdLine
     {| vcpus := 1; memoryBytes := 0;
        bootloader := Some (NewEFIBootloader "" false);
        devices := [Blk {| imagePath := "" |}] |}).1
  = ([], Some (Errorf "Missing EFI store path"))
  ∧ (ToCmdLine
       {| vcpus := 1; memoryBytes := 0;
          bootloader := Some (NewEFIBootloader "/store" false);
          devices := [RNG Build_virtioRNG; Serial {| logFile := "" |};
                      Blk {| imagePath := "" |}] |}).1
    = ([], Some (Errorf "virtio-serial needs the path to the log file"))
  ∧ (ToCmdLine {| vmlinuzPath := ""; kernelCmdLine := ""; initrdPath := "" |}).1
    = ([], Some (Errorf "Missing kernel path"))
  ∧ (ToCmdLine {| vmlinuzPath := "/k"; kernelCmdLine := ""; initrdPath := "" |}).1
    = ([], Some (Errorf "Missing initrd path"))
  ∧ (ToCmdLine {| vmlinuzPath := "/k"; kernelCmdLine := ""; initrdPath := "/i" |}).1
    = ([], Some (Errorf "Missing kernel command line")).
Proof.
  split; [|split; [|split; [|split]]].
  - eapply (proj1 (VirtualMachine_ToCmdLine_first_failure _)); reflexivity.
  - eapply (proj1 (proj2 (VirtualMachine_ToCmdLine_first_failure _))
              _ [RNG Build_virtioRNG] [Blk {| imagePath := "" |}]
              (Serial {| logFile := "" |})); reflexivity.
  - apply (proj2 (proj2 (VirtualMachine_ToCmdLine_first_failure example_vm))).
    reflexivity.
  - apply (proj2 (proj2 (VirtualMachine_ToCmdLine_first_failure example_vm)));
      [discriminate|reflexivity].
  - apply (proj2 (proj2 (VirtualMachine_ToCmdLine_first_failure example_vm)));
      [discriminate|discriminate|reflexivity].
Defined.

(** ** Adding a device *)

(** X3: [AddDevice] never fails and only appends the device; encoding the
    virtual machine afterwards gives the former tokens followed by the tokens
    of the device, fails with the error of the device when the device is the
    first component to fail, and fails as before when the virtual machine
    failed before. *)
Theorem AddDevice_ToCmdLine (dev : VirtioDevice) (vm : VirtualMachine) :
  AddDevice dev vm = (None, set_devices (devices vm ++ [dev]) vm)
  ∧ (ToCmdLine (AddDevice dev vm).2).1
    = match (ToCmdLine vm).1 with
      | (args, None) =>
          match (ToCmdLine dev).1 with
          | (devArgs, None) => (args ++ devArgs, None)
          | (_, Some e) => ([], Some e)
          end
      | (_, Some e) => ([], Some e)
      end.
Proof.
  split; [done|].
  rewrite !VirtualMachine_ToCmdLine_run. cbn [fst].
  change (AddDevice dev vm).2 with (set_devices (devices vm ++ [dev]) vm).
  cbn [set_devices bootloader devices].
  destruct (bootloader vm) as [b|]; [|done].
  destruct (ToCmdLine b).1 as [bootloaderArgs [e|]]; [done|].
  change (cpus_tokens (set_devices _ vm)) with (cpus_tokens vm).
  change (memory_tokens (set_devices _ vm)) with (memory_tokens vm).
  rewrite range_value_app.
  destruct (range_value (devices vm) _) as [args [e|]]; [done|].
  cbn [range_value]. by destruct (ToCmdLine dev).1 as [devArgs [e|]].
Qed.

(** ** The shape of the output *)

Lemma flag_value_pairs_app (args1 args2 : list string) :
  flag_value_pairs args1 = true → flag_value_pairs args2 = true →
  flag_value_pairs (args1 ++ args2) = true.
Proof.
  revert args1. fix IH 1. intros [|flag [|value args1]]; [done|done|].
  cbn [flag_value_pairs app]. rewrite !andb_true_iff.
  intros [Hflag Hargs1] Hargs2. split; [done|]. by apply IH.
Qed.

Lemma component_flag_value_pairs (c : VMComponent) (toks : list string) :
  (ToCmdLine c).1 = (toks, None) →
  flag_value_pairs toks = true ∧ List.length toks = token_count c.
Proof.
  destruct c as [[]|[]|[]|[]|[]|[[] ?]|[]|[]|[]]; run_method;
    intros; by simplify_eq.
Qed.

Lemma range_value_flag_value_pairs (devs : list VirtioDevice) :
  ∀ args out, range_value devs args = (out, None) →
    (flag_value_pairs args = true → flag_value_pairs out = true)
    ∧ List.length out = List.length args + sum_list (token_count <$> devs).
Proof.
  induction devs as [|dev devs IH]; intros args out; cbn [range_value].
  - intros [= <-]. cbn. split; [done|lia].
  - destruct (ToCmdLine dev).1 as [toks [e|]] eqn:Hdev; [done|].
    apply component_flag_value_pairs in Hdev as [Hpairs Hlen].
    intros [Hout Hcount]%IH. split.
    + intros Hargs. by apply Hout, flag_value_pairs_app.
    + rewrite Hcount, length_app, Hlen. cbn. lia.
Qed.

(** X4: a successful [VirtualMachine.ToCmdLine] returns a sequence of pairs,
    each a flag of the package followed by one value; it is never empty, and
    its length is two for [--cpus] when present, two for [--memory] when
    present, six for a linux bootloader and two for any other component,
    bootloader or device: no component is dropped or merged. *)
Theorem VirtualMachine_ToCmdLine_pairs (vm : VirtualMachine) (args : list string) :
  (ToCmdLine vm).1 = (args, None) →
  flag_value_pairs args = true
  ∧ args ≠ []
  ∧ ∃ b : Bootloader,
      bootloader vm = Some b
      ∧ List.length args
        = (if bool_decide (vcpus vm ≠ 0%N) then 2 else 0)
          + (if bool_decide (memoryBytes vm ≠ 0%N) then 2 else 0)
          + token_count b + sum_list (token_count <$> devices vm).
Proof.
  rewrite VirtualMachine_ToCmdLine_run. cbn [fst].
  destruct (bootloader vm) as [b|]; [|done].
  destruct (ToCmdLine b).1 as [bootloaderArgs [e|]] eqn:Hb; [done|].
  apply component_flag_value_pairs in Hb as [Hpairs Hlen].
  intros [Hout Hcount]%range_value_flag_value_pairs.
  assert (List.length (cpus_tokens vm ++ memory_tokens vm ++ bootloaderArgs)
          = (if bool_decide (vcpus vm ≠ 0%N) then 2 else 0)
            + (if bool_decide (memoryBytes vm ≠ 0%N) then 2 else 0)
            + token_count b) as Hprefix.
  { rewrite !length_app, Hlen. unfold cpus_tokens, memory_tokens.
    repeat case_bool_decide; try done; cbn; lia. }
  split; [|split].
  - apply Hout. unfold cpus_tokens, memory_tokens.
    repeat case_bool_decide; by repeat apply flag_value_pairs_app.
  - intros ->. cbn in Hcount. rewrite Hprefix in Hcount. destruct b; cbn in Hcount; lia.
  - exists b. split; [done|]. by rewrite Hcount, Hprefix.
Qed.

Lemma VirtualMachine_ToCmdLine_pairs_witness :
  flag_value_pairs example_vm_tokens = true
  ∧ example_vm_tokens ≠ []
  ∧ ∃ b : Bootloader,
      bootloader example_vm = Some b
      ∧ List.length example_vm_tokens
        = (if bool_decide (vcpus example_vm ≠ 0%N) then 2 else 0)
          + (if bool_decide (memoryBytes example_vm ≠ 0%N) then 2 else 0)
          + token_count b + sum_list (token_count <$> devices example_vm).
Proof.
  apply (VirtualMachine_ToCmdLine_pairs example_vm example_vm_tokens).
  vm_compute. reflexivity.
Defined.

(** ** The errors *)

(** X5: the error of a failing [ToCmdLine], of a component or of a virtual
    machine, is one of the ten [fmt.Errorf] messages of the package. *)
Theorem ToCmdLine_errors (vm : VirtualMachine) (e : error) :
  ((ToCmdLine vm).1.2 = Some e → ∃ msg, e = Errorf msg ∧ msg ∈ error_messages)
  ∧ (∀ c : VMComponent,
       (ToCmdLine c).1.2 = Some e → ∃ msg, e = Errorf msg ∧ msg ∈ error_messages).
Proof.
  assert (∀ c : VMComponent,
    (ToCmdLine c).1.2 = Some e → ∃ msg, e = Errorf msg ∧ msg ∈ error_messages)
    as Hcomponent.
  { intros c. destruct c as [[]|[]|[]|[]|[]|[[] ?]|[]|[]|[]]; run_method;
      intros; simplify_eq; eexists; (split; [done|]);
      apply (bool_decide_unpack _); by vm_compute. }
  split; [|done].
  rewrite VirtualMachine_ToCmdLine_run. cbn [fst].
  destruct (bootloader vm) as [b|].
  - specialize (Hcomponent b) as Hb.
    destruct (ToCmdLine b).1 as [bootloaderArgs [e'|]]; [done|].
    destruct (range_value _ _) as [out [e'|]] eqn:Hrun; [|done].
    apply range_value_failure in Hrun as (_ & dev & _ & Hdev).
    intros [= <-]. by apply (Hcomponent dev).
  - intros [= <-]. eexists. split; [done|]. apply (bool_decide_unpack _).
    by vm_compute.
Qed.

Lemma ToCmdLine_errors_witness :
  ∃ msg, Errorf "missing bootloader configuration" = Errorf msg
         ∧ msg ∈ error_messages.
Proof.
  apply (proj1 (ToCmdLine_errors headless_vm
                  (Errorf "missing bootloader configuration"))).
  reflexivity.
Defined.

(** ** Commas in the fields *)

(** X6: the fields are written into the value as they are, a comma in a
    path is not escaped: a virtio-fs device with a mount tag renders as the
    device without mount tag whose directory ends with [,mountTag=] and the
    tag, and an efi bootloader that creates its store renders as the one that
    does not and whose path ends with [,create]. *)
Theorem commas_not_escaped :
  (∀ dir tag : string, dir ≠ "" → tag ≠ "" →
     (virtioFs_ToCmdLine {| sharedDir := dir; mountTag := tag |}).1
     = (virtioFs_ToCmdLine {| sharedDir := dir +:+ ",mountTag=" +:+ tag; mountTag := "" |}).1)
  ∧ (∀ path : string, path ≠ "" →
       (efiBootloader_ToCmdLine {| efiVariableStorePath := path; createVariableStore := true |}).1
       = (efiBootloader_ToCmdLine {| efiVariableStorePath := path +:+ ",create";
                       createVariableStore := false |}).1).
Proof.
  split.
  - intros dir tag Hdir Htag. run_method; try done. by destruct dir.
  - intros path Hpath. run_method; try done. by destruct path.
Qed.

Lemma commas_not_escaped_witness :
  (virtioFs_ToCmdLine {| sharedDir := "/srv"; mountTag := "share" |}).1
  = (virtioFs_ToCmdLine {| sharedDir := "/srv" +:+ ",mountTag=" +:+ "share";
                  mountTag := "" |}).1
  ∧ (efiBootloader_ToCmdLine {| efiVariableStorePath := "/store"; createVariableStore := true |}).1
    = (efiBootloader_ToCmdLine {| efiVariableStorePath := "/store" +:+ ",create";
                    createVariableStore := false |}).1.
Proof.
  split.
  - apply (proj1 commas_not_escaped "/srv" "share"); discriminate.
  - apply (proj2 commas_not_escaped "/store"); discriminate.
Defined.

(** ** Devices that render differently *)

Lemma list_ascii_of_string_app (s1 s2 : string) :
  list_ascii_of_string (s1 +:+ s2)
  = list_ascii_of_string s1 ++ list_ascii_of_string s2.
Proof.
  induction s1 as [|c s1 IH]; [done|].
  rewrite string_app_cons. cbn. by rewrite IH.
Qed.

Lemma list_ascii_of_string_inj (s1 s2 : string) :
  list_ascii_of_string s1 = list_ascii_of_string s2 → s1 = s2.
Proof.
  intros Heq. rewrite <-(string_of_list_ascii_of_string s1), Heq.
  apply string_of_list_ascii_of_string.
Qed.

Lemma string_app_inj_r (s1 s2 t : string) : s1 +:+ t = s2 +:+ t → s1 = s2.
Proof.
  intros Heq%(f_equal list_ascii_of_string).
  rewrite !list_ascii_of_string_app in Heq.
  by apply app_inv_tail, list_ascii_of_string_inj in Heq.
Qed.

Lemma string_app_last (s1 s2 t1 t2 : string) (c1 c2 : ascii) :
  s1 +:+ (t1 +:+ String c1 "") = s2 +:+ (t2 +:+ String c2 "") → c1 = c2.
Proof.
  intros Heq%(f_equal list_ascii_of_string).
  rewrite !list_ascii_of_string_app, !app_assoc in Heq.
  by apply app_inj_tail in Heq as [_ ?].
Qed.

Lemma has_comma_app (s1 s2 : string) :
  has_comma (s1 +:+ s2) = has_comma s1 || has_comma s2.
Proof.
  induction s1 as [|c s1 IH]; [done|].
  by rewrite string_app_cons, !has_comma_cons, IH, orb_assoc.
Qed.

(** A string is cut at its first comma in one way. *)
Lemma string_app_comma_inj (s1 : string) :
  ∀ s2 r1 r2 : string,
    has_comma s1 = false → has_comma s2 = false →
    s1 +:+ String "," r1 = s2 +:+ String "," r2 → s1 = s2 ∧ r1 = r2.
Proof.
  induction s1 as [|c s1 IH]; intros [|c' s2] r1 r2;
    rewrite ?has_comma_cons, ?string_app_cons, ?string_app_nil_l, ?orb_false_iff,
      ?bool_decide_eq_false.
  - by intros _ _ [= ->].
  - intros _ [Hc _] [= <- _]. done.
  - intros [Hc _] _ [= -> _]. done.
  - intros [_ Hs1] [_ Hs2] [= -> Heq].
    by destruct (IH _ _ _ Hs1 Hs2 Heq) as [-> ->].
Qed.

Lemma pretty_N_go_no_comma (x : N) :
  ∀ s : string, has_comma s = false → has_comma (pretty_N_go x s) = false.
Proof.
  induction (N.lt_wf_0 x) as [x _ IH]; intros s Hs.
  destruct (decide (x = 0%N)) as [->|Hx]; [by rewrite pretty_N_go_0|].
  rewrite pretty_N_go_step by lia. apply IH; [apply N.div_lt; lia|].
  rewrite has_comma_cons, Hs, orb_false_r. apply bool_decide_eq_false.
  unfold pretty_N_char. by repeat case_match.
Qed.

Lemma FormatUint_no_comma (n : N) : has_comma (FormatUint n) = false.
Proof.
  unfold FormatUint, pretty, pretty_N. case_decide; [done|].
  by apply pretty_N_go_no_comma.
Qed.

Lemma FormatUint_inj (n1 n2 : N) : FormatUint n1 = FormatUint n2 → n1 = n2.
Proof. apply (inj pretty). Qed.

(** X7: two virtio-vsock devices, two virtio-blk devices, two virtio-serial
    devices or two timeSync components that render to the same tokens are
    equal: their rendering loses nothing. *)
Theorem render_injective :
  (∀ dev1 dev2 : VirtioVsock,
     (ToCmdLine dev1).1.2 = None → (ToCmdLine dev1).1 = (ToCmdLine dev2).1 →
     dev1 = dev2)
  ∧ (∀ dev1 dev2 : virtioBlk,
       (ToCmdLine dev1).1.2 = None → (ToCmdLine dev1).1 = (ToCmdLine dev2).1 →
       dev1 = dev2)
  ∧ (∀ dev1 dev2 : virtioSerial,
       (ToCmdLine dev1).1.2 = None → (ToCmdLine dev1).1 = (ToCmdLine dev2).1 →
       dev1 = dev2)
  ∧ (∀ ts1 ts2 : timeSync,
       (ToCmdLine ts1).1 = (ToCmdLine ts2).1 → ts1 = ts2).
Proof.
  split; [|split; [|split]].
  - intros [port1 url1 listen1] [port2 url2 listen2]. run_method; try done.
    intros _ [= Heq].
    change (?s +:+ ",socketURL=" +:+ ?r) with (s +:+ String "," ("socketURL=" +:+ r))
      in Heq.
    apply string_app_comma_inj in Heq as [->%FormatUint_inj [= Heq]];
      [|apply FormatUint_no_comma..].
    rewrite !string_app_nil_l in Heq. destruct listen1, listen2.
    + by apply (string_app_inj_r url1 url2 ",listen") in Heq as ->.
    + by apply (string_app_last url1 url2 ",liste" ",connec") in Heq.
    + by apply (string_app_last url1 url2 ",connec" ",liste") in Heq.
    + by apply (string_app_inj_r url1 url2 ",connect") in Heq as ->.
  - intros [path1] [path2]. run_method; try done.
    intros _ [= Heq]. by rewrite (Heq : path1 = path2).
  - intros [path1] [path2]. run_method; try done.
    intros _ [= Heq]. by rewrite (Heq : path1 = path2).
  - intros [port1] [port2]. run_method; try done.
    + intros [= Heq]. by rewrite (FormatUint_inj port1 port2 Heq).
    + intros _. f_equal. lia.
Qed.

Lemma render_injective_witness :
  {| Port := 1024; SocketURL := "/tmp/vsock.sock"; Listen := true |}
  = {| Port := 1024; SocketURL := "/tmp/vsock.sock"; Listen := true |}
  ∧ {| imagePath := "/disk.img" |} = {| imagePath := "/disk.img" |}
  ∧ {| logFile := "/log" |} = {| logFile := "/log" |}
  ∧ {| vsockPort := 7 |} = {| vsockPort := 7 |}.
Proof.
  split; [|split; [|split]].
  - apply (proj1 render_injective); reflexivity.
  - apply (proj1 (proj2 render_injective)); reflexivity.
  - apply (proj1 (proj2 (proj2 render_injective))); reflexivity.
  - apply (proj2 (proj2 (proj2 render_injective))); reflexivity.
Defined.

(** ** The constructors *)

(** X8: the constructors of the devices and of the bootloaders check
    nothing ([VirtioNetNew] apart): they return a component and no error
    whatever their arguments are, and a missing field is only reported when
    the component is rendered. *)
Theorem constructors_defer_validation :
  (∀ port url listen, ∃ dev,
     VirtioVsockNew port url listen = (Some dev, None)
     ∧ ((ToCmdLine dev).1.2 = None ↔ port ≠ 0%N ∧ url ≠ ""))
  ∧ (∀ path, ∃ dev,
       VirtioBlkNew path = (Some dev, None)
       ∧ ((ToCmdLine dev).1.2 = None ↔ path ≠ ""))
  ∧ (∃ dev, VirtioRNGNew = (Some dev, None) ∧ (ToCmdLine dev).1.2 = None)
  ∧ (∀ path, ∃ dev,
       VirtioSerialNew path = (Some dev, None)
       ∧ ((ToCmdLine dev).1.2 = None ↔ path ≠ ""))
  ∧ (∀ dir tag, ∃ dev,
       VirtioFsNew dir tag = (Some dev, None)
       ∧ ((ToCmdLine dev).1.2 = None ↔ dir ≠ ""))
  ∧ (∀ port, ∃ ts,
       TimeSyncNew port = (Some ts, None) ∧ (ToCmdLine ts).1.2 = None)
  ∧ (∀ vmlinuz cmdline initrd,
       (ToCmdLine (NewLinuxBootloader vmlinuz cmdline initrd)).1.2 = None
       ↔ vmlinuz ≠ "" ∧ initrd ≠ "" ∧ cmdline ≠ "")
  ∧ (∀ path create,
       (ToCmdLine (NewEFIBootloader path create)).1.2 = None ↔ path ≠ "").
Proof.
  split_and!; intros; try (eexists; split; [done|]);
    rewrite ?component_valid; cbn;
    rewrite ?andb_true_iff, ?bool_decide_eq_true; first [done | tauto].
Qed.

(** * Further properties of the list value *)

(** ** An efi bootloader given to the [--bootloader] flag *)

(** X9: [AddFlags] binds [--bootloader] to a list value; the value that an
    efi bootloader renders, given to [Set] on the model of the list value, is
    split into [efi], [variable-store=<path>] and, when the store is to be
    created, [create], provided the path holds no comma and no double
    quote. *)
Theorem efiBootloader_value_decoded (b : efiBootloader) (v : string) :
  count_quotes (efiVariableStorePath b) = 0 →
  has_comma (efiVariableStorePath b) = false →
  (ToCmdLine b).1 = (["--bootloader"; v], None) →
  Set_ v zero_stringSliceValue
  = (None,
     {| value := ["efi"; "variable-store=" +:+ efiVariableStorePath b]
                 ++ (if createVariableStore b then ["create"] else []);
        changed := true |}).
Proof.
  destruct b as [path create]. cbn [efiVariableStorePath createVariableStore].
  intros Hq Hc Hrun.
  assert (v = Join (["efi"; "variable-store=" +:+ path]
                    ++ (if create then ["create"] else [])) ",") as ->.
  { revert Hrun. run_method; [done|]. intros [= <-].
    destruct create; cbn; by rewrite ?string_app_assoc. }
  assert (count_quotes ("variable-store=" +:+ path) = 0) as Hq'
    by by rewrite count_quotes_app, Hq.
  assert (field_end false ("variable-store=" +:+ path) = Some false) as Hfield.
  { rewrite <-(string_app_nil_r (_ +:+ path)).
    rewrite field_end_plain; [done|done|]. right. by rewrite has_comma_app, Hc. }
  unfold Set_, zero_stringSliceValue, mbind, method_bind, gets, modify, mret,
    method_ret.
  cbn [changed app]. rewrite readAsCSV_Join.
  - destruct create; cbn [fmap list_fmap]; by rewrite !unquote_plain.
  - destruct create; by repeat constructor.
  - by destruct create.
Qed.

Lemma efiBootloader_value_decoded_witness :
  Set_ "efi,variable-store=/store,create" zero_stringSliceValue
  = (None,
     {| value := ["efi"; "variable-store=" +:+ "/store"] ++ ["create"];
        changed := true |}).
Proof.
  apply (efiBootloader_value_decoded
           {| efiVariableStorePath := "/store"; createVariableStore := true |});
    reflexivity.
Defined.

(** ** Repeated occurrences of the flag *)

Lemma Set_run (raw : string) (ss : stringSliceValue) :
  Set_ raw ss
  = (None, {| value := if changed ss then value ss ++ readAsCSV raw
                       else readAsCSV raw;
              changed := true |}).
Proof. reflexivity. Qed.

Lemma Parse_Set_changed (raws : list string) :
  ∀ ss : stringSliceValue, changed ss = true →
    Parse Set_ raws ss
    = (None, {| value := value ss ++ List.concat (readAsCSV <$> raws);
                changed := true |}).
Proof.
  induction raws as [|raw raws IH]; intros [vals chg] Hchg; cbn in Hchg; subst chg.
  - cbn. by rewrite app_nil_r.
  - cbn [Parse]. unfold mbind, method_bind. rewrite Set_run, IH by done.
    cbn. by rewrite <-app_assoc.
Qed.

(** X10: on the model of the list value, parsing never fails; without
    occurrence of the flag the contents are the default installed with
    [Replace], or empty without default; with occurrences they are the parsed
    batches in the order of the occurrences, whatever the default was. *)
Theorem Parse_accumulates (dflt : option (list string)) (raws : list string) :
  contents_after Set_ dflt raws
  = match raws with
    | [] => default [] dflt
    | _ :: _ => List.concat (readAsCSV <$> raws)
    end
  ∧ ∀ ss : stringSliceValue, (Parse Set_ raws ss).1 = None.
Proof.
  split.
  - unfold contents_after. destruct raws as [|raw raws]; [by destruct dflt|].
    cbn [Parse]. unfold mbind, method_bind. rewrite Set_run.
    rewrite Parse_Set_changed by done. by destruct dflt.
  - intros ss. destruct raws as [|raw raws]; [done|].
    cbn [Parse]. unfold mbind, method_bind. rewrite Set_run.
    by rewrite Parse_Set_changed.
Qed.
